(** * Online statistics accumulator and estimator helpers (stats_functions.py)

    A shallow embedding of [StatisticsAccumulator] and of the estimator
    helpers of [stats_functions.py], with the properties of the
    specification stated against it.

    Numbers are modelled in exact arithmetic: every Python/NumPy float is a
    real number ([R]), the sample counter is a [nat], every other Python
    int is a [Z].  Arrays are NumPy arrays of floating dtype, given by their
    shape (a tuple of dimensions) and their elements in C order; every
    sample handed to the accumulator is an object of its own (no two
    samples share a buffer).  A method that mutates [self] is a function of
    the state that returns the state after the call together with the
    result or the exception raised. *)

From Stdlib Require Import String.
From Stdlib Require Import Reals Lra Lia Psatz ZArith Bool List Permutation.
Import ListNotations.

Set Implicit Arguments.

(** ** Python exceptions and fallible computations *)

Inductive exn : Type :=
| RuntimeError
| ValueError
| TypeError
| AttributeError.

Inductive result (A : Type) : Type :=
| Ok (a : A)
| Raise (e : exn).

Arguments Ok {A} a.
Arguments Raise {A} e.

Definition rbind {A B : Type} (r : result A) (k : A -> result B) : result B :=
  match r with
  | Ok a => k a
  | Raise e => Raise e
  end.

Declare Scope result_scope.
Delimit Scope result_scope with result.
Notation "x <- c ;; k" := (rbind c (fun x => k))
  (at level 61, c at next level, right associativity) : result_scope.

(** ** The NumPy primitives the module calls *)

Module Np.

Local Open Scope R_scope.
Local Open Scope result_scope.

(** An n-dimensional array: its shape and its elements in C order. *)
Record ndarray : Type := mk_ndarray {
  nd_shape : list nat;
  nd_data : list R
}.

(** A numeric Python object: a number or an array. *)
Inductive value : Type :=
| Num (x : R)
| Arr (a : ndarray).

(** [np.prod] of a shape tuple. *)
Definition prod (s : list nat) : nat := fold_right Nat.mul 1%nat s.

Definition size (a : ndarray) : nat := prod (nd_shape a).

Definition shape_eqb (s t : list nat) : bool :=
  if list_eq_dec Nat.eq_dec s t then true else false.

(** An array is well formed when it has as many elements as its shape
    announces. *)
Definition wf_ndarray (a : ndarray) : bool :=
  (length (nd_data a) =? size a)%nat.

Definition wf_value (v : value) : bool :=
  match v with
  | Num _ => true
  | Arr a => wf_ndarray a
  end.

(** [np.zeros(shape)] *)
Definition zeros (s : list nat) : ndarray :=
  mk_ndarray s (repeat 0 (prod s)).

(** [np.ravel(v)]: a 1-d array of the elements; a number gives one element. *)
Definition ravel (v : value) : ndarray :=
  match v with
  | Num x => mk_ndarray [1%nat] [x]
  | Arr a => mk_ndarray [size a] (nd_data a)
  end.

(** [a.reshape(shape)] *)
Definition reshape (a : ndarray) (s : list nat) : result ndarray :=
  if (prod s =? size a)%nat then Ok (mk_ndarray s (nd_data a))
  else Raise ValueError.

Definition nd_map (f : R -> R) (a : ndarray) : ndarray :=
  mk_ndarray (nd_shape a) (map f (nd_data a)).

Definition vmap (f : R -> R) (v : value) : value :=
  match v with
  | Num x => Num (f x)
  | Arr a => Arr (nd_map f a)
  end.

(** *** Broadcasting *)

(** Shapes are compared from the last axis backwards; [bshape_rev] works
    on the reversed shapes. *)
Fixpoint bshape_rev (s t : list nat) : option (list nat) :=
  match s, t with
  | [], _ => Some t
  | _, [] => Some s
  | a :: s', b :: t' =>
      match bshape_rev s' t' with
      | None => None
      | Some r =>
          if (a =? b)%nat then Some (a :: r)
          else if (a =? 1)%nat then Some (b :: r)
          else if (b =? 1)%nat then Some (a :: r)
          else None
      end
  end.

Definition broadcast_shapes (s t : list nat) : option (list nat) :=
  option_map (@rev nat) (bshape_rev (rev s) (rev t)).

(** A shape is completed with leading axes of length 1. *)
Definition pad_shape (s : list nat) (ndim : nat) : list nat :=
  repeat 1%nat (ndim - length s) ++ s.

(** [chunks k n d]: the first [k] consecutive blocks of [n] elements. *)
Fixpoint chunks (k n : nat) (d : list R) : list (list R) :=
  match k with
  | O => []
  | S k' => firstn n d :: chunks k' n (skipn n d)
  end.

(** The elements of an array of shape [s] stretched to shape [t] (of the
    same number of axes): an axis of length 1 is repeated. *)
Fixpoint broadcast_data (s t : list nat) (d : list R) : list R :=
  match s, t with
  | a :: s', b :: t' =>
      if (a =? b)%nat
      then flat_map (broadcast_data s' t') (chunks a (prod s') d)
      else concat (repeat (broadcast_data s' t' d) b)
  | _, _ => d
  end.

Fixpoint zip_with (f : R -> R -> R) (xs ys : list R) : list R :=
  match xs, ys with
  | x :: xs', y :: ys' => f x y :: zip_with f xs' ys'
  | _, _ => []
  end.

Definition nd_binop (f : R -> R -> R) (a b : ndarray) : result ndarray :=
  match broadcast_shapes (nd_shape a) (nd_shape b) with
  | None => Raise ValueError
  | Some t =>
      let n := length t in
      Ok (mk_ndarray t
            (zip_with f
               (broadcast_data (pad_shape (nd_shape a) n) t (nd_data a))
               (broadcast_data (pad_shape (nd_shape b) n) t (nd_data b))))
  end.

(** An elementwise binary operator on numbers and arrays. *)
Definition binop (f : R -> R -> R) (u v : value) : result value :=
  match u, v with
  | Num x, Num y => Ok (Num (f x y))
  | Num x, Arr b => Ok (Arr (nd_map (f x) b))
  | Arr a, Num y => Ok (Arr (nd_map (fun x => f x y) a))
  | Arr a, Arr b => c <- nd_binop f a b ;; Ok (Arr c)
  end.

Definition sub : value -> value -> result value := binop Rminus.
Definition mul : value -> value -> result value := binop Rmult.

(** [target += rhs].  A number is immutable, so the name is rebound to the
    sum; an array is updated in place, which NumPy refuses when the sum
    does not have the shape of the target. *)
Definition iadd (target rhs : value) : result value :=
  match target with
  | Num _ => binop Rplus target rhs
  | Arr a =>
      r <- binop Rplus target rhs ;;
      match r with
      | Arr c => if shape_eqb (nd_shape c) (nd_shape a) then Ok r
                 else Raise ValueError
      | Num _ => Ok r
      end
  end.

(** [v / k] and [k * v] for an integer [k]; the module divides by the
    counter after its increment and by [count - ddof] when it is positive. *)
Definition div_int (v : value) (k : Z) : value := vmap (fun x => x / IZR k) v.
Definition int_mul (k : Z) (v : value) : value := vmap (fun x => IZR k * x) v.

(** [np.outer(u, v)]: both arguments are flattened. *)
Definition outer (u v : value) : ndarray :=
  let a := ravel u in
  let b := ravel v in
  mk_ndarray [length (nd_data a); length (nd_data b)]
    (flat_map (fun x => map (fun y => x * y) (nd_data b)) (nd_data a)).

(** Row [i] of a matrix with [c] columns holds its diagonal element at
    column [i]. *)
Fixpoint diag_from (i r c : nat) (d : list R) : list R :=
  match r with
  | O => []
  | S r' =>
      if (i <? c)%nat
      then nth i d 0 :: diag_from (S i) r' c (skipn c d)
      else []
  end.

Fixpoint diag_matrix (i n : nat) (d : list R) : list R :=
  match d with
  | [] => []
  | x :: d' =>
      (repeat 0 i ++ x :: repeat 0 (n - S i)) ++ diag_matrix (S i) n d'
  end.

(** [np.diag(v)]: the diagonal of a 2-d array, the diagonal matrix of a
    1-d array, [ValueError] for any other number of axes. *)
Definition diag (v : value) : result ndarray :=
  match v with
  | Num _ => Raise ValueError
  | Arr a =>
      match nd_shape a with
      | [n] => Ok (mk_ndarray [n; n] (diag_matrix 0 n (nd_data a)))
      | [r; c] => Ok (mk_ndarray [Nat.min r c] (diag_from 0 r c (nd_data a)))
      | _ => Raise ValueError
      end
  end.

(** [np.sqrt(v)], for non-negative elements. *)
Definition sqrt (v : value) : value := vmap R_sqrt.sqrt v.

End Np.

Import Np.

(** ** A small state-and-exception monad for the methods that mutate [self]

    A method is a function from the object before the call to the object
    after it and the outcome.  A statement that raises leaves the
    assignments made before it in place. *)

Section Prog.

Variable St : Type.

Definition prog (A : Type) : Type := St -> St * result A.

Definition pret {A : Type} (a : A) : prog A := fun s => (s, Ok a).

Definition pbind {A B : Type} (m : prog A) (k : A -> prog B) : prog B :=
  fun s =>
    match m s with
    | (s', Ok a) => k a s'
    | (s', Raise e) => (s', Raise e)
    end.

Definition get : prog St := fun s => (s, Ok s).

Definition modify (f : St -> St) : prog unit := fun s => (f s, Ok tt).

Definition lift {A : Type} (r : result A) : prog A := fun s => (s, r).

End Prog.

Arguments pret {St A} a.
Arguments get {St}.
Arguments lift {St A} r.

Declare Scope prog_scope.
Delimit Scope prog_scope with prog.
Notation "x <- c ;; k" := (pbind c (fun x => k))
  (at level 61, c at next level, right associativity) : prog_scope.
Notation "c ;; k" := (pbind c (fun _ => k))
  (at level 61, right associativity) : prog_scope.

(** ** class StatisticsAccumulator *)

(** The attributes of an accumulator.  [_mean] and [_M2] are [None] until
    the shape is known.  The [dtype] attribute is not modelled: all
    arithmetic is exact. *)
Record accumulator : Type := mk_accumulator {
  count : nat;
  ddof : Z;
  ret_cov : bool;
  shape : option (list nat);
  _mean : option value;
  _M2 : option value
}.

Definition set_count (n : nat) (self : accumulator) : accumulator :=
  mk_accumulator n (ddof self) (ret_cov self) (shape self)
    (_mean self) (_M2 self).

Definition set_shape (s : option (list nat)) (self : accumulator)
  : accumulator :=
  mk_accumulator (count self) (ddof self) (ret_cov self) s
    (_mean self) (_M2 self).

Definition set_mean (m : option value) (self : accumulator) : accumulator :=
  mk_accumulator (count self) (ddof self) (ret_cov self) (shape self)
    m (_M2 self).

Definition set_M2 (m : option value) (self : accumulator) : accumulator :=
  mk_accumulator (count self) (ddof self) (ret_cov self) (shape self)
    (_mean self) m.

(** [__init__(self, ddof=0, shape=None, dtype=np.double, ret_cov=False)] *)
Definition StatisticsAccumulator
    (ddof : Z) (shape : option (list nat)) (ret_cov : bool) : accumulator :=
  match shape with
  | None => mk_accumulator 0 ddof ret_cov None None None
  | Some s =>
      let size := prod s in
      mk_accumulator 0 ddof ret_cov (Some s)
        (Some (Arr (zeros [size])))
        (Some (Arr (if ret_cov then zeros [size; size] else zeros [size])))
  end.

(** The number of samples as a Python int. *)
Definition zcount (self : accumulator) : Z := Z.of_nat (count self).

Local Open Scope Z_scope.

(** [mean] property.  Without a shape the stored mean is handed out as it
    is, [None] included. *)
Definition mean (self : accumulator) : result (option value) :=
  match shape self with
  | None => Ok (_mean self)
  | Some s =>
      match _mean self with
      | Some (Arr a) => (r <- reshape a s ;; Ok (Some (Arr r)))%result
      | _ => Raise AttributeError
      end
  end.

(** [cov] property *)
Definition cov (self : accumulator) : result value :=
  if zcount self <=? ddof self then Raise RuntimeError
  else if negb (ret_cov self) then Raise ValueError
  else
    match _M2 self with
    | Some m => Ok (div_int m (zcount self - ddof self))
    | None => Raise TypeError
    end.

(** [var] property *)
Definition var (self : accumulator) : result value :=
  if zcount self <=? ddof self then Raise RuntimeError
  else
    (v <- (if ret_cov self then
             match _M2 self with
             | Some m =>
                 d <- diag m ;; Ok (div_int (Arr d) (zcount self - ddof self))
             | None => Raise ValueError
             end
           else
             match _M2 self with
             | Some m => Ok (div_int m (zcount self - ddof self))
             | None => Raise TypeError
             end) ;;
     match shape self with
     | None => Ok v
     | Some s =>
         match v with
         | Arr a => r <- reshape a s ;; Ok (Arr r)
         | Num _ => Raise AttributeError
         end
     end)%result.

(** [std] property *)
Definition std (self : accumulator) : result value :=
  (v <- var self ;; Ok (Np.sqrt v))%result.

Local Open Scope prog_scope.

(** [_initialize(self, value)].  [hasattr(value, '__iter__')] holds for an
    array and fails for a number.  The source keeps [np.ravel(value)], a
    view of the caller's array with its dtype, and [add] later updates it
    in place; the model stores the elements.  The two agree for an array
    of floating dtype that the caller neither hands in again nor reads or
    writes afterwards; the properties that need more than that are stated
    for accumulators built with a shape, whose buffers are their own. *)
Definition _initialize (v : value) : prog accumulator unit :=
  modify (set_count 1%nat) ;;
  match v with
  | Arr value_arr =>
      modify (set_shape (Some (nd_shape value_arr))) ;;
      let size := size value_arr in
      modify (set_mean (Some (Arr (ravel v)))) ;;
      self <- get ;;
      if ret_cov self then modify (set_M2 (Some (Arr (zeros [size; size]))))
      else modify (set_M2 (Some (Arr (zeros [size]))))
  | Num _ =>
      modify (set_shape None) ;;
      modify (set_mean (Some v)) ;;
      modify (set_M2 (Some (Num 0%R)))
  end.

(** Reading an attribute for arithmetic: [None] supports none of it. *)
Definition operand (o : option value) : prog accumulator value :=
  match o with
  | Some v => pret v
  | None => lift (Raise TypeError)
  end.

(** [add(self, value)] *)
Definition add (value : value) : prog accumulator unit :=
  self <- get ;;
  match _mean self with
  | None => _initialize value
  | Some _ =>
      let value :=
        match shape self with
        | Some _ => Arr (ravel value)
        | None => value
        end in
      modify (fun self => set_count (S (count self)) self) ;;
      self <- get ;;
      mean0 <- operand (_mean self) ;;
      delta <- lift (sub value mean0) ;;
      mean1 <- lift (iadd mean0 (div_int delta (zcount self))) ;;
      modify (set_mean (Some mean1)) ;;
      if ret_cov self then
        rhs <- (m <- operand (_M2 self) ;;
                lift (sub (int_mul (zcount self - 1) (Arr (outer delta delta)))
                          (div_int m (zcount self)))) ;;
        m <- operand (_M2 self) ;;
        m' <- lift (iadd m rhs) ;;
        modify (set_M2 (Some m'))
      else
        rhs <- (d <- lift (sub value mean1) ;; lift (mul delta d)) ;;
        m <- operand (_M2 self) ;;
        m' <- lift (iadd m rhs) ;;
        modify (set_M2 (Some m'))
  end.

(** [add_many(self, arr_or_iter)] *)
Fixpoint add_many (values : list value) : prog accumulator unit :=
  match values with
  | [] => pret tt
  | v :: rest => add v ;; add_many rest
  end.

Local Close Scope prog_scope.

(** ** Module-level functions *)

(** A component of the result of [mean_std_online]: [NaN] is the [np.nan]
    the function substitutes for a missing mean or for a [ValueError] of
    [std]; [Val] is what the accessor returned.  Samples being real
    numbers, [Val] holds no NaN of the float arithmetic: a NaN or an
    infinite sample is outside the model. *)
Inductive maybe_nan : Type :=
| NaN
| Val (v : value).

(** [mean_std_online(arr_or_iter, ddof=0, shape=None)].  Only [ValueError]
    is caught around [acc.std]. *)
Definition mean_std_online
    (arr_or_iter : list value) (ddof : Z) (shape : option (list nat))
  : result (maybe_nan * maybe_nan) :=
  let acc := StatisticsAccumulator ddof shape false in
  match add_many arr_or_iter acc with
  | (_, Raise e) => Raise e
  | (acc, Ok _) =>
      (m <- mean acc ;;
       mean_out <- match m with
                   | None => Ok NaN
                   | Some _ =>
                       m' <- mean acc ;;
                       match m' with
                       | Some v => Ok (Val v)
                       | None => Ok NaN
                       end
                   end ;;
       std_out <- match std acc with
                  | Ok s => Ok (Val s)
                  | Raise ValueError => Ok NaN
                  | Raise e => Raise e
                  end ;;
       Ok (mean_out, std_out))%result
  end.

(** [lognorm_mean_var_to_mu_sigma(mean, variance, definition='scipy')] *)
Definition lognorm_mean_var_to_mu_sigma
    (mean variance : R) (definition : string) : result (R * R) :=
  let mean2 := (mean ^ 2)%R in
  let mu := (mean2 / R_sqrt.sqrt (mean2 + variance))%R in
  let sigma := R_sqrt.sqrt (ln (1 + variance / mean2)) in
  if String.eqb definition "scipy" then Ok (mu, sigma)
  else if String.eqb definition "numpy" then Ok (ln mu, sigma)
  else Raise ValueError.

(** [range(start, stop, step)] for a positive [step]: the values
    [start + k * step] below [stop]. *)
Definition py_range (start stop step : Z) : list Z :=
  map (fun k => start + step * Z.of_nat k)
      (seq 0 (Z.to_nat ((stop - start + step - 1) / step))).

(** The indices of the series of [sampling_distribution_cv]:
    [range(1 - num%2, num, 2)]. *)
Definition cv_indices (num : Z) : list Z := py_range (1 - num mod 2) num 2.

Section SamplingDistributions.

(** SciPy's [special.gamma] and [misc.factorial]. *)
Variable gamma : R -> R.
Variable factorial : R -> R.

Local Open Scope R_scope.

(** One term of the series. *)
Definition cv_term (x2 cv : R) (num i : Z) : R :=
  factorial (IZR (num - 1)) * gamma (0.5 * IZR (num - i))
    * Rpower (IZR num) (0.5 * IZR i)
  / (factorial (IZR (num - 1 - i)) * factorial (IZR i)
     * Rpower 2 (0.5 * IZR i) * powerRZ cv i
     * Rpower (1 + x2) (0.5 * IZR i)).

(** [sum(...)] of a generator: the terms are added to 0 from left to
    right. *)
Definition py_sum (terms : list R) : R := fold_left Rplus terms 0.

(** [sampling_distribution_cv(x, cv, num)] *)
Definition sampling_distribution_cv (x cv : R) (num : Z) : R :=
  if Rlt_dec x 0 then 0
  else
    let x2 := x * x in
    let res := py_sum (map (cv_term x2 cv num) (cv_indices num)) in
    let res := res * (2 / (R_sqrt.sqrt PI * gamma (0.5 * IZR (num - 1)))) in
    let res := res * (powerRZ x (num - 2) / Rpower (1 + x2) (0.5 * IZR num)) in
    let res := res * exp (- 0.5 * IZR num / powerRZ cv 2 * x2 / (1 + x2)) in
    res.

End SamplingDistributions.

Section SamplingDistributionStd.

(** SciPy's [special.gamma]. *)
Variable gamma : R -> R.

Local Open Scope R_scope.

(** [sampling_distribution_std(x, std, num)] *)
Definition sampling_distribution_std (x std : R) (num : Z) : R :=
  if Rlt_dec x 0 then 0
  else
    let scale := R_sqrt.sqrt (IZR num) / std in
    let x := x * scale in
    let res :=
      Rpower 2 (1 - 0.5 * IZR num) * powerRZ x (num - 1)
      * exp (- 0.5 * x * x) / gamma (0.5 * IZR num) in
    res * scale.

End SamplingDistributionStd.

(** The frozen distribution [stats.lognorm(scale=scale, s=s)]. *)
Record lognorm : Type := mk_lognorm {
  lognorm_scale : R;
  lognorm_s : R
}.

(** [lognorm_mean_var(mean, variance)] *)
Definition lognorm_mean_var (mean variance : R) : result lognorm :=
  (p <- lognorm_mean_var_to_mu_sigma mean variance "scipy" ;;
   let (scale, sigma) := p in
   Ok (mk_lognorm scale sigma))%result.





(** * Definitions used to state the properties *)

(** ** The batch (offline) formulas *)

Local Open Scope R_scope.

Definition rsum (xs : list R) : R := fold_right Rplus 0 xs.

Definition sumsq (xs : list R) : R := rsum (map (fun x => x * x) xs).

(** [sum(samples) / count] *)
Definition batch_mean (xs : list R) : R := rsum xs / INR (length xs).

(** The population variance [sum((x - mean)^2) / count]. *)
Definition batch_variance (xs : list R) : R :=
  rsum (map (fun x => (x - batch_mean xs) ^ 2) xs) / INR (length xs).

Local Close Scope R_scope.

(** ** Shapes of the accumulator's state *)

(** The state of an accumulator that holds numbers only. *)
Definition scalar_acc (d : Z) (n : nat) (m M : R) : accumulator :=
  mk_accumulator n d false None (Some (Num m)) (Some (Num M)).

(** The number of elements a sample contributes once flattened. *)
Definition vsize (v : value) : nat := length (nd_data (ravel v)).

(** The number of elements of the accumulator's shape. *)
Definition acc_size (self : accumulator) : nat :=
  match shape self with
  | Some s => prod s
  | None => 1
  end.

Definition is_array_of (s : list nat) (o : option value) : bool :=
  match o with
  | Some (Arr a) => shape_eqb (nd_shape a) s && wf_ndarray a
  | _ => false
  end.

(** The states of an accumulator with an array shape, as [__init__] with a
    shape and [_initialize] with an array build them: a flat mean of
    [size] elements and a second moment of [size] elements, or of
    [size * size] when covariances are tracked. *)
Definition array_state (self : accumulator) : bool :=
  match shape self with
  | Some s =>
      is_array_of [prod s] (_mean self)
      && is_array_of (if ret_cov self then [prod s; prod s] else [prod s])
           (_M2 self)
  | None => false
  end.

(** A 1-d operand stretched to [n] elements when it has a single one. *)
Definition stretch (n : nat) (d : list R) : list R :=
  if (length d =? n)%nat then d else concat (repeat d n).

(** The update of the flat buffers, element by element: [dv] is the
    flattened sample, [dm] and [dM] the mean and the second moment before
    the call, [c] the counter after its increment. *)
Definition delta_of (n : nat) (dv dm : list R) : list R :=
  zip_with Rminus (stretch n dv) dm.

Definition mean_after (c : Z) (dm delta : list R) : list R :=
  zip_with Rplus dm (map (fun x => (x / IZR c)%R) delta).

Definition var_M2_after (n : nat) (dv dM delta mean1 : list R) : list R :=
  zip_with Rplus dM
    (zip_with Rmult delta (zip_with Rminus (stretch n dv) mean1)).

Definition cov_M2_after (c : Z) (dM delta : list R) : list R :=
  zip_with Rplus dM
    (zip_with Rminus
       (map (fun x => (IZR (c - 1) * x)%R)
          (flat_map (fun x => map (fun y => (x * y)%R) delta) delta))
       (map (fun x => (x / IZR c)%R) dM)).

(** Element [i] of a flat buffer, element [(i, j)] of a matrix; a number is
    its own only element. *)
Definition vec_at (o : option value) (i : nat) : R :=
  match o with
  | Some (Arr a) => nth i (nd_data a) 0%R
  | Some (Num x) => x
  | None => 0%R
  end.

Definition mat_at (o : option value) (i j : nat) : R :=
  match o with
  | Some (Arr a) =>
      match nd_shape a with
      | [_; c] => nth (i * c + j) (nd_data a) 0%R
      | _ => 0%R
      end
  | Some (Num x) => x
  | None => 0%R
  end.

(** The states an accumulator goes through from [init] under calls of
    [add] with numbers and arrays, whether the calls return or raise. *)
Inductive reachable (init : accumulator) : accumulator -> Prop :=
| reach_init : reachable init init
| reach_add (v : value) (self : accumulator) :
    reachable init self ->
    wf_value v = true ->
    reachable init (fst (add v self)).

(** ** Statements of the specification that are compared with the code *)

(** The covariance update as the specification words it, for one entry:
    [M2 += (count - 1) * outer(delta, delta) / count - M2 / count]. *)
Definition spec_cov_update (n : Z) (m2 di dj : R) : R :=
  (m2 + (IZR (n - 1) * (di * dj) / IZR n - m2 / IZR n))%R.

(** The index set as the specification words it:
    [1 - n mod 2, 1 - n mod 2 + 2, ..., n - 2]. *)
Definition spec_cv_indices (n : Z) : list Z :=
  py_range (1 - n mod 2) (n - 2 + 1) 2.

(** The samples [[1,2]], [[2,4]], [[3,6]]. *)
Definition sample_12 : value := Arr (mk_ndarray [2%nat] [1; 2]%R).
Definition sample_24 : value := Arr (mk_ndarray [2%nat] [2; 4]%R).
Definition sample_36 : value := Arr (mk_ndarray [2%nat] [3; 6]%R).

(** ** Further statistics used by the properties *)

(** The sum of squared deviations from the mean. *)
Definition sum_sq_dev (xs : list R) : R :=
  rsum (map (fun x => (x - batch_mean xs) ^ 2)%R xs).


(** Element [k] of every row. *)
Definition column (k : nat) (rows : list (list R)) : list R :=
  map (fun r => nth k r 0%R) rows.

(** The population covariance of elements [i] and [j] of the rows:
    [sum((x_i - mean_i) * (x_j - mean_j)) / count]. *)
Definition batch_covariance (rows : list (list R)) (i j : nat) : R :=
  (rsum (map (fun r =>
                (nth i r 0 - batch_mean (column i rows))
                * (nth j r 0 - batch_mean (column j rows)))
           rows)
   / INR (length rows))%R.

(** The states of an accumulator built by [StatisticsAccumulator] and fed
    numbers and arrays: without shape, or with the flat buffers of the
    shape. *)
Definition consistent_state (self : accumulator) : bool :=
  match shape self with
  | None => true
  | Some _ => array_state self
  end.




(** The sample of shape [s] with the elements [r]. *)
Definition row_sample (s : list nat) (r : list R) : value :=
  Arr (mk_ndarray s r).

(** The second moment holds a symmetric matrix. *)
Definition symmetric_M2 (self : accumulator) : Prop :=
  forall i j : nat,
    (i < acc_size self)%nat -> (j < acc_size self)%nat ->
    mat_at (_M2 self) i j = mat_at (_M2 self) j i.


(** * Properties *)

(** ** Scalar samples: Welford's recurrence against the batch formulas *)

Module BatchFacts.

Local Open Scope R_scope.

Lemma rsum_perm (xs ys : list R) : Permutation xs ys -> rsum xs = rsum ys.
Proof.
  induction 1 as [ | x l l' _ IH | x y l | l l' l'' _ IH1 _ IH2 ]; simpl.
  - reflexivity.
  - now rewrite IH.
  - lra.
  - now rewrite IH1.
Qed.

Lemma sumsq_perm (xs ys : list R) : Permutation xs ys -> sumsq xs = sumsq ys.
Proof.
  intros H. unfold sumsq. apply rsum_perm. now apply Permutation_map.
Qed.

(** The sum of squared deviations from any centre [c], expanded. *)
Lemma deviations_expand (c : R) (xs : list R) :
  rsum (map (fun x => (x - c) ^ 2) xs)
  = sumsq xs - 2 * c * rsum xs + INR (length xs) * c ^ 2.
Proof.
  unfold sumsq.
  induction xs as [ | x xs IH ].
  - simpl. lra.
  - change (length (x :: xs)) with (S (length xs)).
    rewrite S_INR. simpl map. simpl rsum. simpl in IH. rewrite IH. ring.
Qed.

Lemma variance_sumsq (xs : list R) :
  xs <> [] ->
  batch_variance xs
  = (sumsq xs - rsum xs * rsum xs / INR (length xs)) / INR (length xs).
Proof.
  intros Hne.
  assert (Hn : INR (length xs) <> 0).
  { apply not_0_INR. destruct xs; [congruence | discriminate]. }
  unfold batch_variance. rewrite deviations_expand. unfold batch_mean.
  field. exact Hn.
Qed.

Lemma mean_perm (xs ys : list R) :
  Permutation xs ys -> batch_mean xs = batch_mean ys.
Proof.
  intros H. unfold batch_mean.
  now rewrite (rsum_perm H), (Permutation_length H).
Qed.

Lemma variance_perm (xs ys : list R) :
  Permutation xs ys -> batch_variance xs = batch_variance ys.
Proof.
  intros H. unfold batch_variance.
  rewrite (mean_perm H), (Permutation_length H).
  f_equal. apply rsum_perm. now apply Permutation_map.
Qed.

End BatchFacts.

Section ScalarStream.

Local Open Scope R_scope.

(** One update of [add] on a scalar accumulator, as the source computes
    it. *)
Lemma add_scalar_step (d : Z) (n : nat) (m M x : R) :
  add (Num x) (scalar_acc d n m M)
  = (scalar_acc d (S n)
       (m + (x - m) / IZR (Z.of_nat (S n)))
       (M + (x - m) * (x - (m + (x - m) / IZR (Z.of_nat (S n))))),
     Ok tt).
Proof. reflexivity. Qed.

Lemma add_scalar_first (d : Z) (x : R) :
  add (Num x) (StatisticsAccumulator d None false)
  = (scalar_acc d 1 x 0, Ok tt).
Proof. reflexivity. Qed.

(** Welford's invariant: with [n >= 1] samples of sum [s1] and sum of
    squares [s2] held as mean [s1 / n] and second moment [s2 - s1^2 / n],
    feeding [xs] keeps that form. *)
Lemma add_many_scalar_invariant (d : Z) (xs : list R) :
  forall (n : nat) (s1 s2 : R),
    (0 < n)%nat ->
    add_many (map Num xs)
      (scalar_acc d n (s1 / INR n) (s2 - s1 * s1 / INR n))
    = (scalar_acc d (n + length xs)
         ((s1 + rsum xs) / INR (n + length xs))
         ((s2 + sumsq xs)
          - (s1 + rsum xs) * (s1 + rsum xs) / INR (n + length xs)),
       Ok tt).
Proof.
  induction xs as [ | x xs IH ]; intros n s1 s2 Hn.
  - simpl. unfold pret. rewrite Nat.add_0_r.
    unfold sumsq. simpl. now rewrite !Rplus_0_r.
  - assert (Hn0 : INR n <> 0) by (apply not_0_INR; lia).
    assert (HSn : INR (S n) <> 0) by (apply not_0_INR; lia).
    change (map Num (x :: xs)) with (Num x :: map Num xs).
    change (add_many (Num x :: map Num xs))
      with (pbind (add (Num x)) (fun _ => add_many (map Num xs))).
    unfold pbind. rewrite add_scalar_step.
    rewrite <- INR_IZR_INZ.
    replace (s1 / INR n + (x - s1 / INR n) / INR (S n))
      with ((s1 + x) / INR (S n))
      by (rewrite S_INR in *; field; split; assumption).
    replace (s2 - s1 * s1 / INR n
             + (x - s1 / INR n) * (x - (s1 + x) / INR (S n)))
      with ((s2 + x * x) - (s1 + x) * (s1 + x) / INR (S n))
      by (rewrite S_INR in *; field; split; assumption).
    rewrite IH by lia.
    unfold sumsq. simpl.
    replace (n + S (length xs))%nat with (S n + length xs)%nat by lia.
    f_equal. f_equal; f_equal; try ring.
    f_equal; ring.
Qed.

(** A non-empty stream of numbers, fed to a fresh accumulator. *)
Lemma add_many_scalar (d : Z) (xs : list R) :
  xs <> [] ->
  add_many (map Num xs) (StatisticsAccumulator d None false)
  = (scalar_acc d (length xs)
       (rsum xs / INR (length xs))
       (sumsq xs - rsum xs * rsum xs / INR (length xs)),
     Ok tt).
Proof.
  destruct xs as [ | x xs ]; [congruence | intros _].
  change (map Num (x :: xs)) with (Num x :: map Num xs).
  change (add_many (Num x :: map Num xs))
    with (pbind (add (Num x)) (fun _ => add_many (map Num xs))).
  unfold pbind. rewrite add_scalar_first.
  replace (scalar_acc d 1 x 0)
    with (scalar_acc d 1 (x / INR 1) (x * x - x * x / INR 1))
    by (simpl INR; f_equal; field).
  rewrite add_many_scalar_invariant by lia.
  unfold sumsq. simpl. reflexivity.
Qed.

End ScalarStream.

(** ** Broadcasting of flat buffers *)

Module NpFacts.

Local Open Scope R_scope.

Lemma zip_with_length (f : R -> R -> R) (xs ys : list R) :
  length (zip_with f xs ys) = Nat.min (length xs) (length ys).
Proof.
  revert ys. induction xs as [ | x xs IH ]; intros [ | y ys ]; simpl; auto.
Qed.

Lemma zip_with_nth (f : R -> R -> R) (xs ys : list R) (k : nat) :
  (k < length xs)%nat -> (k < length ys)%nat ->
  nth k (zip_with f xs ys) 0 = f (nth k xs 0) (nth k ys 0).
Proof.
  revert ys k. induction xs as [ | x xs IH ]; intros [ | y ys ] [ | k ];
    simpl; intros Hx Hy; try lia; auto.
  apply IH; lia.
Qed.

Lemma map_nth_lt (f : R -> R) (xs : list R) (k : nat) :
  (k < length xs)%nat -> nth k (map f xs) 0 = f (nth k xs 0).
Proof.
  intros H. rewrite (nth_indep _ 0 (f 0)) by now rewrite length_map.
  apply map_nth.
Qed.

(** Cutting a list into blocks and gluing the blocks back. *)
Lemma flat_map_chunks (g : list R -> list R) (n : nat) :
  (forall c, length c = n -> g c = c) ->
  forall (k : nat) (d : list R),
    length d = (k * n)%nat -> flat_map g (chunks k n d) = d.
Proof.
  intros Hg. induction k as [ | k IH ]; intros d Hd; simpl in *.
  - now apply length_zero_iff_nil in Hd.
  - rewrite Hg by (rewrite length_firstn; lia).
    rewrite IH by (rewrite length_skipn; lia).
    apply firstn_skipn.
Qed.

Lemma bshape_rev_same (s : list nat) : bshape_rev s s = Some s.
Proof.
  induction s as [ | a s IH ]; simpl; auto.
  now rewrite IH, Nat.eqb_refl.
Qed.

Lemma broadcast_shapes_same (s : list nat) : broadcast_shapes s s = Some s.
Proof.
  unfold broadcast_shapes. rewrite bshape_rev_same. simpl.
  now rewrite rev_involutive.
Qed.

Lemma pad_shape_same (s : list nat) : pad_shape s (length s) = s.
Proof. unfold pad_shape. now rewrite Nat.sub_diag. Qed.

Lemma broadcast_data_same (s : list nat) :
  forall d, length d = prod s -> broadcast_data s s d = d.
Proof.
  induction s as [ | a s IH ]; intros d Hd; simpl in *; auto.
  rewrite Nat.eqb_refl. now apply flat_map_chunks.
Qed.

(** Two arrays of one shape: the operator is applied element by element. *)
Lemma nd_binop_same (f : R -> R -> R) (s : list nat) (d1 d2 : list R) :
  length d1 = prod s -> length d2 = prod s ->
  nd_binop f (mk_ndarray s d1) (mk_ndarray s d2)
  = Ok (mk_ndarray s (zip_with f d1 d2)).
Proof.
  intros H1 H2. unfold nd_binop. simpl.
  rewrite broadcast_shapes_same, pad_shape_same.
  now rewrite !broadcast_data_same.
Qed.

Lemma concat_repeat_single (x : R) (n : nat) :
  concat (repeat [x] n) = repeat x n.
Proof. induction n as [ | n IH ]; simpl; congruence. Qed.

(** Two 1-d arrays: equal lengths, or one of them of length 1 and
    stretched, or a broadcasting error. *)
Lemma nd_binop_1d (f : R -> R -> R) (m n : nat) (d1 d2 : list R) :
  nd_binop f (mk_ndarray [m] d1) (mk_ndarray [n] d2)
  = if (m =? n)%nat then
      Ok (mk_ndarray [m]
            (zip_with f (flat_map (fun c => c) (chunks m 1 d1))
                        (flat_map (fun c => c) (chunks m 1 d2))))
    else if (m =? 1)%nat then
      Ok (mk_ndarray [n]
            (zip_with f (concat (repeat d1 n))
                        (flat_map (fun c => c) (chunks n 1 d2))))
    else if (n =? 1)%nat then
      Ok (mk_ndarray [m]
            (zip_with f (flat_map (fun c => c) (chunks m 1 d1))
                        (concat (repeat d2 m))))
    else Raise ValueError.
Proof.
  unfold nd_binop, broadcast_shapes. simpl.
  destruct (m =? n)%nat eqn:Emn.
  - apply Nat.eqb_eq in Emn. subst n. simpl. unfold pad_shape. simpl.
    now rewrite Nat.eqb_refl.
  - destruct (m =? 1)%nat eqn:Em1.
    + simpl. unfold pad_shape. simpl. rewrite Emn, Nat.eqb_refl. reflexivity.
    + destruct (n =? 1)%nat eqn:En1; simpl; auto.
      unfold pad_shape. simpl. rewrite Nat.eqb_refl.
      rewrite Nat.eqb_sym in Emn. now rewrite Emn.
Qed.

End NpFacts.

(** ** Flattened samples against flat buffers *)

Module ArrFacts.

Import NpFacts.
Local Open Scope R_scope.

Lemma shape_eqb_eq (s t : list nat) : shape_eqb s t = true <-> s = t.
Proof.
  unfold shape_eqb. destruct (list_eq_dec Nat.eq_dec s t); split; congruence.
Qed.

Lemma shape_eqb_refl (s : list nat) : shape_eqb s s = true.
Proof. now apply shape_eqb_eq. Qed.

Lemma is_array_of_inv (s : list nat) (o : option value) :
  is_array_of s o = true ->
  exists d, o = Some (Arr (mk_ndarray s d)) /\ length d = prod s.
Proof.
  destruct o as [ [ x | [sh d] ] | ]; simpl; try discriminate.
  intros H. apply andb_prop in H. destruct H as [Hs Hw].
  apply shape_eqb_eq in Hs. subst sh.
  apply Nat.eqb_eq in Hw. now exists d.
Qed.

Lemma is_array_of_intro (s : list nat) (d : list R) :
  length d = prod s -> is_array_of s (Some (Arr (mk_ndarray s d))) = true.
Proof.
  intros H. simpl. rewrite shape_eqb_refl. unfold wf_ndarray, size. simpl.
  now apply Nat.eqb_eq.
Qed.

Lemma prod_vec (n : nat) : prod [n] = n.
Proof. simpl. lia. Qed.

Lemma prod_mat (n : nat) : prod [n; n] = (n * n)%nat.
Proof. simpl. lia. Qed.

(** The flattened sample of a well-formed value. *)
Lemma ravel_wf (v : value) :
  wf_value v = true ->
  exists d, ravel v = mk_ndarray [vsize v] d /\ length d = vsize v.
Proof.
  destruct v as [ x | [s d] ]; simpl; intros H.
  - exists [x]. split; reflexivity.
  - apply Nat.eqb_eq in H. unfold size in H. simpl in H.
    exists d. unfold vsize, size. simpl. split; congruence.
Qed.

Lemma stretch_length (n : nat) (d : list R) :
  length d = n \/ length d = 1%nat -> length (stretch n d) = n.
Proof.
  unfold stretch. destruct (length d =? n)%nat eqn:E.
  - now apply Nat.eqb_eq in E.
  - intros [H | H]; [apply Nat.eqb_neq in E; contradiction | ].
    destruct d as [ | x [ | y d ] ]; try discriminate.
    now rewrite concat_repeat_single, repeat_length.
Qed.

Lemma flat_chunks_1 (n : nat) (d : list R) :
  length d = n -> flat_map (fun c => c) (chunks n 1 d) = d.
Proof.
  intros H. apply flat_map_chunks; auto. lia.
Qed.

(** A flattened sample against a flat buffer of [n] elements. *)
Lemma nd_binop_vec_ok (f : R -> R -> R) (m n : nat) (d1 d2 : list R) :
  length d1 = m -> length d2 = n -> m = n \/ m = 1%nat ->
  nd_binop f (mk_ndarray [m] d1) (mk_ndarray [n] d2)
  = Ok (mk_ndarray [n] (zip_with f (stretch n d1) d2)).
Proof.
  intros H1 H2 Hmn. rewrite nd_binop_1d. unfold stretch. rewrite H1.
  destruct (m =? n)%nat eqn:E.
  - apply Nat.eqb_eq in E.
    rewrite !flat_chunks_1 by congruence. now rewrite E.
  - destruct Hmn as [ -> | -> ]; [now rewrite Nat.eqb_refl in E | ].
    simpl. now rewrite flat_chunks_1.
Qed.

Lemma nd_binop_vec_fail (f : R -> R -> R) (m n : nat) (d1 d2 : list R) :
  m <> n -> m <> 1%nat -> n <> 1%nat ->
  nd_binop f (mk_ndarray [m] d1) (mk_ndarray [n] d2) = Raise ValueError.
Proof.
  intros H1 H2 H3. rewrite nd_binop_1d.
  apply Nat.eqb_neq in H1, H2, H3. now rewrite H1, H2, H3.
Qed.

(** A sample of several elements against a buffer of one element: the
    difference has the sample's length. *)
Lemma nd_binop_vec_wide (f : R -> R -> R) (m : nat) (d1 d2 : list R) :
  length d1 = m -> m <> 1%nat ->
  nd_binop f (mk_ndarray [m] d1) (mk_ndarray [1%nat] d2)
  = Ok (mk_ndarray [m] (zip_with f d1 (concat (repeat d2 m)))).
Proof.
  intros H1 H2. rewrite nd_binop_1d.
  apply Nat.eqb_neq in H2. rewrite H2. simpl.
  rewrite flat_chunks_1 by assumption. reflexivity.
Qed.

End ArrFacts.

(** ** The three outcomes of [add] on flat buffers *)

Module AddFacts.

Import NpFacts ArrFacts.
Local Open Scope R_scope.

Lemma stretch_same (n : nat) (d : list R) : length d = n -> stretch n d = d.
Proof. intros H. unfold stretch. apply Nat.eqb_eq in H. now rewrite H. Qed.

Lemma vec_binop_same (f : R -> R -> R) (n : nat) (d1 d2 : list R) :
  length d1 = n -> length d2 = n ->
  nd_binop f (mk_ndarray [n] d1) (mk_ndarray [n] d2)
  = Ok (mk_ndarray [n] (zip_with f d1 d2)).
Proof. intros H1 H2. apply nd_binop_same; now rewrite prod_vec. Qed.

Lemma mat_binop_same (f : R -> R -> R) (n : nat) (d1 d2 : list R) :
  length d1 = (n * n)%nat -> length d2 = (n * n)%nat ->
  nd_binop f (mk_ndarray [n; n] d1) (mk_ndarray [n; n] d2)
  = Ok (mk_ndarray [n; n] (zip_with f d1 d2)).
Proof. intros H1 H2. apply nd_binop_same; now rewrite prod_mat. Qed.

Lemma outer_data_length (d1 d2 : list R) :
  length (flat_map (fun x => map (fun y => x * y) d2) d1)
  = (length d1 * length d2)%nat.
Proof.
  induction d1 as [ | x d1 IH ]; simpl; auto.
  now rewrite length_app, length_map, IH.
Qed.

Lemma zip_with_length_same (f : R -> R -> R) (n : nat) (d1 d2 : list R) :
  length d1 = n -> length d2 = n -> length (zip_with f d1 d2) = n.
Proof. intros H1 H2. rewrite zip_with_length. lia. Qed.

Lemma delta_of_length (n : nat) (dv dm : list R) :
  length dv = n \/ length dv = 1%nat -> length dm = n ->
  length (delta_of n dv dm) = n.
Proof.
  intros Hv Hm. apply zip_with_length_same; auto. now apply stretch_length.
Qed.

Lemma mean_after_length (c : Z) (n : nat) (dm delta : list R) :
  length dm = n -> length delta = n -> length (mean_after c dm delta) = n.
Proof.
  intros Hm Hd. apply zip_with_length_same; auto. now rewrite length_map.
Qed.

Lemma var_M2_after_length (n : nat) (dv dM delta mean1 : list R) :
  length dv = n \/ length dv = 1%nat ->
  length dM = n -> length delta = n -> length mean1 = n ->
  length (var_M2_after n dv dM delta mean1) = n.
Proof.
  intros Hv HM Hd Hm. repeat apply zip_with_length_same; auto.
  now apply stretch_length.
Qed.

Lemma cov_M2_after_length (c : Z) (n : nat) (dM delta : list R) :
  length dM = (n * n)%nat -> length delta = n ->
  length (cov_M2_after c dM delta) = (n * n)%nat.
Proof.
  intros HM Hd. repeat apply zip_with_length_same; auto;
    rewrite length_map; auto.
  rewrite outer_data_length. congruence.
Qed.

Section Update.

Variables (c : nat) (d : Z) (s : list nat) (v : value) (m : nat).
Variables (dv dm dM : list R).

Local Abbreviation n := (prod s).
Local Abbreviation c' := (Z.of_nat (S c)).

Hypothesis Hravel : ravel v = mk_ndarray [m] dv.
Hypothesis Hdv : length dv = m.
Hypothesis Hdm : length dm = n.

Local Abbreviation delta := (delta_of n dv dm).
Local Abbreviation mean1 := (mean_after c' dm delta).

(** The update without covariances, for a sample of the buffer's size
    or of a single element. *)
Lemma add_array_var :
  m = n \/ m = 1%nat -> length dM = n ->
  add v (mk_accumulator c d false (Some s)
           (Some (Arr (mk_ndarray [n] dm)))
           (Some (Arr (mk_ndarray [n] dM))))
  = (mk_accumulator (S c) d false (Some s)
       (Some (Arr (mk_ndarray [n] mean1)))
       (Some (Arr (mk_ndarray [n] (var_M2_after n dv dM delta mean1)))),
     Ok tt).
Proof.
  intros Hmn HdM.
  unfold var_M2_after, cov_M2_after, mean_after, delta_of.
  set (k := Z.of_nat (S c)).
  set (dl := zip_with Rminus (stretch n dv) dm).
  set (m1 := zip_with Rplus dm (map (fun x => x / IZR k) dl)).
  assert (Hs : length (stretch n dv) = n)
    by (apply stretch_length; rewrite Hdv; exact Hmn).
  assert (Hdelta : length dl = n)
    by (apply zip_with_length_same; assumption).
  assert (Hmean1 : length m1 = n).
  { apply zip_with_length_same; auto. now rewrite length_map. }
  unfold add, pbind, get, modify, lift, operand, pret. simpl.
  rewrite Hravel. unfold sub, mul, iadd, binop, div_int, vmap, nd_map, rbind.
  simpl.
  rewrite (nd_binop_vec_ok Rminus dv dm Hdv Hdm Hmn).
  rewrite vec_binop_same by (auto; now rewrite length_map).
  simpl. rewrite shape_eqb_refl.
  unfold zcount, set_count, set_mean, set_M2.
  cbn [count ddof ret_cov shape _mean _M2].
  fold k dl m1.
  rewrite (nd_binop_vec_ok Rminus dv m1 Hdv Hmean1 Hmn).
  rewrite vec_binop_same by (auto; now apply zip_with_length_same).
  rewrite vec_binop_same
    by (auto; apply zip_with_length_same; auto;
        now apply zip_with_length_same).
  simpl. rewrite shape_eqb_refl. reflexivity.
Qed.

(** The update with covariances. *)
Lemma add_array_cov :
  m = n \/ m = 1%nat -> length dM = (n * n)%nat ->
  add v (mk_accumulator c d true (Some s)
           (Some (Arr (mk_ndarray [n] dm)))
           (Some (Arr (mk_ndarray [n; n] dM))))
  = (mk_accumulator (S c) d true (Some s)
       (Some (Arr (mk_ndarray [n] mean1)))
       (Some (Arr (mk_ndarray [n; n] (cov_M2_after c' dM delta)))),
     Ok tt).
Proof.
  intros Hmn HdM.
  unfold var_M2_after, cov_M2_after, mean_after, delta_of.
  set (k := Z.of_nat (S c)).
  set (dl := zip_with Rminus (stretch n dv) dm).
  set (m1 := zip_with Rplus dm (map (fun x => x / IZR k) dl)).
  assert (Hs : length (stretch n dv) = n)
    by (apply stretch_length; rewrite Hdv; exact Hmn).
  assert (Hdelta : length dl = n)
    by (apply zip_with_length_same; assumption).
  unfold add, pbind, get, modify, lift, operand, pret. simpl.
  rewrite Hravel.
  unfold sub, mul, iadd, binop, div_int, int_mul, vmap, nd_map, rbind, outer.
  simpl.
  rewrite (nd_binop_vec_ok Rminus dv dm Hdv Hdm Hmn).
  rewrite vec_binop_same by (auto; now rewrite length_map).
  simpl. rewrite shape_eqb_refl.
  unfold zcount, set_count, set_mean, set_M2.
  cbn [count ddof ret_cov shape _mean _M2].
  fold k dl m1. rewrite Hdelta.
  rewrite mat_binop_same
    by (rewrite length_map; auto; rewrite outer_data_length; congruence).
  rewrite mat_binop_same.
  - simpl. rewrite shape_eqb_refl. reflexivity.
  - assumption.
  - apply zip_with_length_same; rewrite length_map; auto.
    rewrite outer_data_length. congruence.
Qed.

(** A sample whose flattened size is neither the buffer's nor 1: the
    array arithmetic raises after the counter has been incremented,
    whatever the second moment holds. *)
Lemma add_array_mismatch (rc : bool) (M2 : option value) :
  m <> n -> m <> 1%nat ->
  add v (mk_accumulator c d rc (Some s)
           (Some (Arr (mk_ndarray [n] dm))) M2)
  = (mk_accumulator (S c) d rc (Some s)
       (Some (Arr (mk_ndarray [n] dm))) M2,
     Raise ValueError).
Proof.
  intros Hmn Hm1.
  unfold add, pbind, get, modify, lift, operand, pret. simpl.
  rewrite Hravel. unfold sub, iadd, binop, div_int, vmap, nd_map, rbind.
  destruct (Nat.eq_dec n 1) as [Hn1 | Hn1].
  - rewrite Hn1.
    assert (E : (1 =? m)%nat = false) by (apply Nat.eqb_neq; congruence).
    rewrite nd_binop_vec_wide by assumption. cbv beta iota.
    cbn [nd_shape nd_data].
    rewrite nd_binop_1d, E. cbn [Nat.eqb]. cbv beta iota.
    cbn [nd_shape]. unfold shape_eqb.
    destruct (list_eq_dec Nat.eq_dec [m] [1%nat]) as [Heq | Hneq];
      [congruence | reflexivity].
  - rewrite nd_binop_vec_fail by assumption. reflexivity.
Qed.

End Update.

End AddFacts.

(** ** What every call of [add] does to the attributes *)

Ltac break_result :=
  repeat match goal with
         | |- context [match ?x with Ok _ => _ | Raise _ => _ end] =>
             destruct x; cbn
         end.

Ltac unfold_add :=
  unfold add, _initialize, pbind, get, modify, lift, operand, pret,
    set_count, set_shape, set_mean, set_M2; cbn.

(** [add] counts the sample first: after a call the counter is 1 when the
    buffers were missing and one more than before otherwise, whether the
    call returns or raises. *)
Lemma add_count (v : value) (self : accumulator) :
  count (fst (add v self))
  = match _mean self with
    | None => 1%nat
    | Some _ => S (count self)
    end.
Proof.
  destruct self as [c d rc sh [ m0 | ] [ M | ]]; destruct rc; destruct v;
    unfold_add; break_result; reflexivity.
Qed.

(** A call of [add] that raises has assigned neither [_M2] nor any of the
    attributes fixed at construction, and has counted the sample. *)
Lemma add_raise_frame (v : value) (self : accumulator) (e : exn) :
  snd (add v self) = Raise e ->
  _M2 (fst (add v self)) = _M2 self
  /\ shape (fst (add v self)) = shape self
  /\ ddof (fst (add v self)) = ddof self
  /\ ret_cov (fst (add v self)) = ret_cov self
  /\ count (fst (add v self)) = S (count self).
Proof.
  destruct self as [c d rc sh [ m0 | ] [ M | ]]; destruct rc; destruct v;
    unfold_add; break_result; intros H;
    first [discriminate H | repeat split; reflexivity].
Qed.

(** ** [add] on an accumulator with an array shape *)

Section ArrayAdd.

Import NpFacts ArrFacts AddFacts.

Lemma array_state_inv (self : accumulator) :
  array_state self = true ->
  exists (s : list nat) (dm dM : list R),
    self = mk_accumulator (count self) (ddof self) (ret_cov self) (Some s)
             (Some (Arr (mk_ndarray [prod s] dm)))
             (Some (Arr (mk_ndarray
                           (if ret_cov self then [prod s; prod s]
                            else [prod s]) dM)))
    /\ length dm = prod s
    /\ length dM = (if ret_cov self then prod s * prod s else prod s)%nat.
Proof.
  destruct self as [c d rc [ s | ] mn M2]; unfold array_state; simpl;
    [ | discriminate ].
  intros H. apply andb_prop in H. destruct H as [Hm HM].
  apply is_array_of_inv in Hm. destruct Hm as (dm & -> & Hdm).
  apply is_array_of_inv in HM. destruct HM as (dM & -> & HdM).
  exists s, dm, dM. rewrite prod_vec in Hdm.
  repeat split; auto.
  destruct rc; [now rewrite prod_mat in HdM | now rewrite prod_vec in HdM].
Qed.

Lemma array_state_intro
    (c : nat) (d : Z) (rc : bool) (s : list nat) (dm dM : list R) :
  length dm = prod s ->
  length dM = (if rc then prod s * prod s else prod s)%nat ->
  array_state
    (mk_accumulator c d rc (Some s)
       (Some (Arr (mk_ndarray [prod s] dm)))
       (Some (Arr (mk_ndarray (if rc then [prod s; prod s] else [prod s])
                     dM))))
  = true.
Proof.
  intros Hdm HdM. unfold array_state. cbn [shape _mean _M2 ret_cov].
  rewrite !is_array_of_intro; try reflexivity;
    destruct rc; rewrite ?prod_mat, ?prod_vec; assumption.
Qed.

(** [__init__] with a shape builds such a state. *)
Lemma array_state_init (d : Z) (s : list nat) (rc : bool) :
  array_state (StatisticsAccumulator d (Some s) rc) = true.
Proof.
  unfold StatisticsAccumulator.
  replace (Arr (if rc then zeros [prod s; prod s] else zeros [prod s]))
    with (Arr (mk_ndarray (if rc then [prod s; prod s] else [prod s])
                 (repeat 0%R (if rc then prod s * prod s else prod s))))
    by (destruct rc; unfold zeros; simpl; now rewrite ?Nat.mul_1_r).
  unfold zeros. rewrite prod_vec.
  apply array_state_intro; destruct rc; now rewrite repeat_length.
Qed.

(** So does the first [add] of an array on an accumulator without shape. *)
Lemma array_state_first_add (d : Z) (rc : bool) (a : ndarray) :
  wf_ndarray a = true ->
  array_state (fst (add (Arr a) (StatisticsAccumulator d None rc))) = true.
Proof.
  intros Hwf. apply Nat.eqb_eq in Hwf.
  destruct a as [s da]. unfold size in Hwf. simpl in Hwf.
  destruct rc; unfold add, _initialize, pbind, get, modify; simpl;
    unfold array_state, size; simpl;
    rewrite !shape_eqb_refl; unfold wf_ndarray, size; simpl;
    rewrite ?repeat_length, ?Nat.mul_1_r, Hwf, !Nat.eqb_refl; reflexivity.
Qed.

(** A sample of the accumulator's size, or of a single element, is
    taken in. *)
Lemma add_array_ok (self : accumulator) (v : value) :
  array_state self = true ->
  wf_value v = true ->
  vsize v = acc_size self \/ vsize v = 1%nat ->
  exists self' : accumulator,
    add v self = (self', Ok tt)
    /\ array_state self' = true
    /\ shape self' = shape self
    /\ count self' = S (count self).
Proof.
  intros Hst Hwf Hsz.
  destruct (array_state_inv self Hst) as (s & dm & dM & Hself & Hdm & HdM).
  destruct (ravel_wf v Hwf) as (dv & Hravel & Hdv).
  rewrite Hself in Hsz |- *. unfold acc_size in Hsz. simpl in Hsz.
  assert (Hv : length dv = prod s \/ length dv = 1%nat)
    by (rewrite Hdv; exact Hsz).
  assert (Hdelta : length (delta_of (prod s) dv dm) = prod s)
    by (apply delta_of_length; assumption).
  assert (Hmean1 : length (mean_after (Z.of_nat (S (count self))) dm
                             (delta_of (prod s) dv dm)) = prod s)
    by (apply mean_after_length; assumption).
  destruct (ret_cov self) eqn:Hrc.
  - rewrite (@add_array_cov (count self) (ddof self) s v (vsize v)
               dv dm dM Hravel Hdv Hdm Hsz HdM).
    eexists. split; [reflexivity | ].
    simpl. split; [ | split; reflexivity ].
    apply (array_state_intro (S (count self)) (ddof self) true s).
    + exact Hmean1.
    + now apply cov_M2_after_length.
  - rewrite (@add_array_var (count self) (ddof self) s v (vsize v)
               dv dm dM Hravel Hdv Hdm Hsz HdM).
    eexists. split; [reflexivity | ].
    simpl. split; [ | split; reflexivity ].
    apply (array_state_intro (S (count self)) (ddof self) false s).
    + exact Hmean1.
    + now apply var_M2_after_length.
Qed.

(** Any other sample makes the array arithmetic raise [ValueError], after
    the counter has been incremented and before any buffer is written. *)
Lemma add_array_fail (self : accumulator) (v : value) :
  array_state self = true ->
  wf_value v = true ->
  vsize v <> acc_size self ->
  vsize v <> 1%nat ->
  add v self = (set_count (S (count self)) self, Raise ValueError).
Proof.
  intros Hst Hwf Hn H1.
  destruct (array_state_inv self Hst) as (s & dm & dM & Hself & Hdm & HdM).
  destruct (ravel_wf v Hwf) as (dv & Hravel & Hdv).
  rewrite Hself in Hn |- *. unfold acc_size in Hn. simpl in Hn.
  pose proof (@add_array_mismatch (count self) (ddof self) s v (vsize v)
                dv dm Hravel Hdv (ret_cov self)
                (Some (Arr (mk_ndarray
                              (if ret_cov self then [prod s; prod s]
                               else [prod s]) dM))) Hn H1) as H.
  rewrite H. reflexivity.
Qed.

Lemma array_state_set_count (n : nat) (self : accumulator) :
  array_state (set_count n self) = array_state self.
Proof. reflexivity. Qed.

(** The array states are closed under [add] of well-formed samples. *)
Lemma array_state_add (self : accumulator) (v : value) :
  array_state self = true ->
  wf_value v = true ->
  array_state (fst (add v self)) = true.
Proof.
  intros Hst Hwf.
  destruct (Nat.eq_dec (vsize v) (acc_size self)) as [E | E].
  - destruct (add_array_ok self v Hst Hwf (or_introl E)) as (s' & -> & H & _).
    exact H.
  - destruct (Nat.eq_dec (vsize v) 1) as [E1 | E1].
    + destruct (add_array_ok self v Hst Hwf (or_intror E1))
        as (s' & -> & H & _).
      exact H.
    + rewrite add_array_fail by assumption. exact Hst.
Qed.

End ArrayAdd.

(** ** Statistics of a stream of numbers *)

(** Without covariance tracking, a fresh accumulator with [ddof = 0] and no
    shape that is fed a non-empty sequence of numbers ends with the mean
    [sum(samples) / count] and the variance [sum((x - mean)^2) / count] of
    the batch formulas; feeding any permutation of the sequence gives the
    same mean and the same variance. *)
Theorem welford_scalar_matches_batch (xs ys : list R) :
  xs <> [] ->
  Permutation xs ys ->
  exists st st' : accumulator,
    add_many (map Num xs) (StatisticsAccumulator 0 None false) = (st, Ok tt)
    /\ count st = length xs
    /\ mean st = Ok (Some (Num (batch_mean xs)))
    /\ var st = Ok (Num (batch_variance xs))
    /\ add_many (map Num ys) (StatisticsAccumulator 0 None false) = (st', Ok tt)
    /\ mean st' = mean st
    /\ var st' = var st.
Proof.
  intros Hne Hperm.
  assert (Hne' : ys <> []).
  { intros ->. apply Permutation_sym, Permutation_nil in Hperm. contradiction. }
  assert (Hvar : forall zs : list R,
             zs <> [] ->
             var (scalar_acc 0 (length zs)
                    (rsum zs / INR (length zs))
                    (sumsq zs
                     - rsum zs * rsum zs / INR (length zs)))
             = Ok (Num (batch_variance zs))).
  { intros zs Hz. unfold var, scalar_acc, zcount. simpl.
    destruct (Z.of_nat (length zs) <=? 0)%Z eqn:E.
    - apply Z.leb_le in E. destruct zs; [congruence | simpl in E; lia].
    - rewrite Z.sub_0_r, <- INR_IZR_INZ, BatchFacts.variance_sumsq by exact Hz.
      reflexivity. }
  exists (scalar_acc 0 (length xs)
            (rsum xs / INR (length xs))
            (sumsq xs - rsum xs * rsum xs / INR (length xs))).
  exists (scalar_acc 0 (length ys)
            (rsum ys / INR (length ys))
            (sumsq ys - rsum ys * rsum ys / INR (length ys))).
  split; [now apply add_many_scalar | ].
  split; [reflexivity | ].
  split; [reflexivity | ].
  split; [now apply Hvar | ].
  split; [now apply add_many_scalar | ].
  split.
  - unfold mean, scalar_acc. simpl.
    now rewrite (BatchFacts.rsum_perm Hperm), (Permutation_length Hperm).
  - rewrite !Hvar by assumption.
    now rewrite (BatchFacts.variance_perm Hperm).
Qed.

Lemma welford_scalar_matches_batch_witness :
  exists st st' : accumulator,
    add_many (map Num [1; 2; 4]%R) (StatisticsAccumulator 0 None false)
    = (st, Ok tt)
    /\ count st = 3%nat
    /\ mean st = Ok (Some (Num (batch_mean [1; 2; 4]%R)))
    /\ var st = Ok (Num (batch_variance [1; 2; 4]%R))
    /\ add_many (map Num [2; 4; 1]%R) (StatisticsAccumulator 0 None false)
       = (st', Ok tt)
    /\ mean st' = mean st
    /\ var st' = var st.
Proof.
  apply (@welford_scalar_matches_batch [1; 2; 4]%R [2; 4; 1]%R).
  - discriminate.
  - apply (Permutation_cons_append [2; 4]%R 1%R).
Defined.

(** ** [mean_std_online] without data *)

Lemma var_too_few (self : accumulator) :
  (zcount self <= ddof self)%Z -> var self = Raise RuntimeError.
Proof.
  intros H. unfold var. apply Z.leb_le in H. now rewrite H.
Qed.

(** With no sample and a non-negative [ddof] the [RuntimeError] of [var]
    leaves [mean_std_online]: the handler is for [ValueError]. *)
Lemma mean_std_online_empty (d : Z) (s : option (list nat)) :
  (0 <= d)%Z -> mean_std_online [] d s = Raise RuntimeError.
Proof.
  intros Hd. unfold mean_std_online, std. simpl.
  rewrite var_too_few by (destruct s; simpl; exact Hd).
  destruct s as [ s | ]; simpl; [ | reflexivity ].
  unfold mean, reshape, size. simpl.
  rewrite Nat.mul_1_r, Nat.eqb_refl. reflexivity.
Qed.

(** C3.  [mean_std_online([], ddof=0)] raises [RuntimeError]; it does not
    return a pair of NaNs. *)
Theorem mean_std_online_empty_raises :
  mean_std_online [] 0 None = Raise RuntimeError.
Proof. reflexivity. Qed.

(** ** The [cov] property *)

(** C7, at a fresh accumulator without covariances: the error is
    [RuntimeError], not [ValueError]. *)
Lemma cov_untracked_fresh_is_runtime_error :
  ret_cov (StatisticsAccumulator 0 None false) = false
  /\ cov (StatisticsAccumulator 0 None false) = Raise RuntimeError
  /\ cov (StatisticsAccumulator 0 None false) <> Raise ValueError.
Proof. repeat split. discriminate. Qed.

(** C7, amended.  Without covariance tracking [cov] always raises: the
    [RuntimeError] of too few items when [count <= ddof], which is tested
    first, and the [ValueError] of the missing covariance matrix only when
    [count > ddof]. *)
Theorem cov_untracked_raises (self : accumulator) :
  ret_cov self = false ->
  ((zcount self <= ddof self)%Z -> cov self = Raise RuntimeError)
  /\ ((ddof self < zcount self)%Z -> cov self = Raise ValueError)
  /\ (cov self = Raise ValueError <-> (ddof self < zcount self)%Z).
Proof.
  intros Hrc. unfold cov. rewrite Hrc. simpl.
  destruct (zcount self <=? ddof self)%Z eqn:E.
  - apply Z.leb_le in E.
    repeat split; intros; first [reflexivity | discriminate | lia].
  - apply Z.leb_gt in E.
    repeat split; intros; first [reflexivity | assumption | lia].
Qed.

Lemma cov_untracked_raises_witness :
  cov (fst (add (Num 1%R) (StatisticsAccumulator 0 None false)))
  = Raise ValueError.
Proof.
  refine (proj1 (proj2 (@cov_untracked_raises
            (fst (add (Num 1%R) (StatisticsAccumulator 0 None false))) _)) _).
  - reflexivity.
  - vm_compute. reflexivity.
Defined.

(** ** Log-normal parameters *)

Lemma sqrt_ln_1 : R_sqrt.sqrt (ln 1) = 0%R.
Proof. rewrite ln_1. apply sqrt_0. Qed.

(** C9.  For a positive mean and a non-negative variance the 'scipy'
    convention returns [mu = mean^2 / sqrt(mean^2 + variance)] and
    [sigma = sqrt(ln(1 + variance / mean^2))], both formulas being used
    inside their domains; for [mean = 1], [variance = 0] this is
    [mu = 1], [sigma = 0]. *)
Theorem lognorm_scipy_formula (mean variance : R) :
  (0 < mean)%R ->
  (0 <= variance)%R ->
  lognorm_mean_var_to_mu_sigma mean variance "scipy"
  = Ok ((mean * mean / R_sqrt.sqrt (mean * mean + variance))%R,
        R_sqrt.sqrt (ln (1 + variance / (mean * mean))))
  /\ (0 < mean * mean + variance)%R
  /\ (0 <= ln (1 + variance / (mean * mean)))%R
  /\ (mean = 1%R -> variance = 0%R ->
      lognorm_mean_var_to_mu_sigma mean variance "scipy" = Ok (1%R, 0%R)).
Proof.
  intros Hm Hv.
  assert (Hmm : (0 < mean * mean)%R) by nra.
  split; [ | split; [ | split ] ].
  - unfold lognorm_mean_var_to_mu_sigma. simpl.
    now rewrite Rmult_1_r.
  - lra.
  - rewrite <- ln_1. 
    assert (Hq : (0 <= variance / (mean * mean))%R).
    { apply Rmult_le_pos; [exact Hv | ].
      apply Rlt_le, Rinv_0_lt_compat, Hmm. }
    destruct (Req_dec (variance / (mean * mean)) 0) as [E | E].
    + rewrite E, Rplus_0_r. lra.
    + apply Rlt_le, ln_increasing; lra.
  - intros -> ->. unfold lognorm_mean_var_to_mu_sigma. simpl.
    replace (1 * (1 * 1) + 0)%R with 1%R by ring.
    replace (1 + 0 / (1 * (1 * 1)))%R with 1%R by field.
    rewrite sqrt_1, sqrt_ln_1.
    replace (1 * (1 * 1) / 1)%R with 1%R by field.
    reflexivity.
Qed.

Lemma lognorm_scipy_formula_witness :
  lognorm_mean_var_to_mu_sigma 1 0 "scipy" = Ok (1%R, 0%R).
Proof.
  refine (proj2 (proj2 (proj2
            (@lognorm_scipy_formula 1%R 0%R _ _))) eq_refl eq_refl); lra.
Defined.

(** Every state reached from an array state is an array state. *)
Lemma reachable_array_state (init self : accumulator) :
  reachable init self -> array_state init = true -> array_state self = true.
Proof.
  induction 1 as [ | v self Hreach IH Hwf ]; intros Hinit.
  - exact Hinit.
  - apply array_state_add; auto.
Qed.

(** ** Samples of another shape *)

(** C4, at shape (2,3) and a sample of shape (3,2): the shapes differ and
    [add] returns without raising. *)
Lemma add_other_shape_same_size_accepted :
  let acc := StatisticsAccumulator 0 (Some [2; 3]%nat) false in
  let v := Arr (mk_ndarray [3; 2]%nat [1; 2; 3; 4; 5; 6]%R) in
  shape acc = Some [2; 3]%nat
  /\ Some [3; 2]%nat <> shape acc
  /\ snd (add v acc) = Ok tt
  /\ (forall e : exn, snd (add v acc) <> Raise e).
Proof.
  cbv zeta. split; [reflexivity | ]. split; [discriminate | ].
  assert (H : snd (add (Arr (mk_ndarray [3; 2]%nat [1; 2; 3; 4; 5; 6]%R))
                     (StatisticsAccumulator 0 (Some [2; 3]%nat) false))
              = Ok tt) by reflexivity.
  split; [exact H | ]. intros e. rewrite H. discriminate.
Qed.

(** C4, amended.  The accumulator has no shape check of its own.  With an
    array shape of [size] elements (given to the constructor or taken from
    a first array sample, see [array_state_init], [array_state_first_add]
    and [reachable_array_state]), [add] flattens the sample and returns
    exactly when the sample has [size] elements or a single element; in
    every other case it raises the [ValueError] of broadcasting, and it
    raises nothing else. *)
Theorem add_rejects_by_size_only (self : accumulator) (v : value) :
  array_state self = true ->
  wf_value v = true ->
  (snd (add v self) = Ok tt
   <-> (vsize v = acc_size self \/ vsize v = 1%nat))
  /\ (snd (add v self) = Raise ValueError
      <-> (vsize v <> acc_size self /\ vsize v <> 1%nat))
  /\ (forall e : exn, snd (add v self) = Raise e -> e = ValueError).
Proof.
  intros Hst Hwf.
  destruct (Nat.eq_dec (vsize v) (acc_size self)) as [E | E];
    [ | destruct (Nat.eq_dec (vsize v) 1) as [E1 | E1] ].
  - destruct (add_array_ok self v Hst Hwf (or_introl E)) as (s' & H & _).
    rewrite H. simpl. repeat split; intros; try discriminate; auto; tauto.
  - destruct (add_array_ok self v Hst Hwf (or_intror E1)) as (s' & H & _).
    rewrite H. simpl. repeat split; intros; try discriminate; auto; tauto.
  - rewrite add_array_fail by assumption. simpl.
    repeat split; intros; try discriminate; auto; try tauto; congruence.
Qed.

Lemma add_rejects_by_size_only_witness :
  snd (add (Arr (mk_ndarray [2; 2]%nat [1; 2; 3; 4]%R))
         (StatisticsAccumulator 0 (Some [2; 3]%nat) false))
  = Raise ValueError.
Proof.
  apply (proj1 (proj2 (@add_rejects_by_size_only
                  (StatisticsAccumulator 0 (Some [2; 3]%nat) false)
                  (Arr (mk_ndarray [2; 2]%nat [1; 2; 3; 4]%R))
                  eq_refl eq_refl))).
  vm_compute. split; discriminate.
Defined.

(** ** A call of [add] that raises *)

(** C5, at shape (2,3) and a sample of shape (2,2): [add] raises and the
    counter has changed. *)
Lemma add_raise_changes_count :
  let acc := StatisticsAccumulator 0 (Some [2; 3]%nat) false in
  let v := Arr (mk_ndarray [2; 2]%nat [1; 2; 3; 4]%R) in
  snd (add v acc) = Raise ValueError
  /\ count acc = 0%nat
  /\ count (fst (add v acc)) = 1%nat
  /\ count (fst (add v acc)) <> count acc.
Proof. cbv zeta. repeat split. discriminate. Qed.

(** On an accumulator without shape that tracks covariances, the update of
    [_M2] can raise after the mean has been rebound: the numbers 1 and 2
    followed by an array of two elements. *)
Remark add_raise_after_mean_update :
  let acc :=
    fst (add_many [Num 1%R; Num 2%R] (StatisticsAccumulator 0 None true)) in
  let v := Arr (mk_ndarray [2%nat] [1; 2]%R) in
  snd (add v acc) = Raise ValueError
  /\ _mean (fst (add v acc)) <> _mean acc
  /\ _M2 (fst (add v acc)) = _M2 acc.
Proof. cbv zeta. repeat split. discriminate. Qed.

(** C5, amended.  When [add] raises, [_M2] is as it was before the call,
    and on an accumulator with an array shape so is the running mean.
    (The counter is incremented before the arithmetic that raises.) *)
Theorem add_raise_keeps_buffers (self : accumulator) (v : value) (e : exn) :
  snd (add v self) = Raise e ->
  _M2 (fst (add v self)) = _M2 self
  /\ (array_state self = true -> wf_value v = true ->
      _mean (fst (add v self)) = _mean self).
Proof.
  intros Hraise. split.
  - apply (add_raise_frame v self Hraise).
  - intros Hst Hwf.
    destruct (Nat.eq_dec (vsize v) (acc_size self)) as [E | E];
      [ | destruct (Nat.eq_dec (vsize v) 1) as [E1 | E1] ].
    + destruct (add_array_ok self v Hst Hwf (or_introl E)) as (s' & H & _).
      rewrite H in Hraise. discriminate Hraise.
    + destruct (add_array_ok self v Hst Hwf (or_intror E1)) as (s' & H & _).
      rewrite H in Hraise. discriminate Hraise.
    + rewrite add_array_fail by assumption. reflexivity.
Qed.

Lemma add_raise_keeps_buffers_witness :
  let acc := StatisticsAccumulator 0 (Some [2; 3]%nat) false in
  let v := Arr (mk_ndarray [2; 2]%nat [1; 2; 3; 4]%R) in
  _M2 (fst (add v acc)) = _M2 acc /\ _mean (fst (add v acc)) = _mean acc.
Proof.
  cbv zeta.
  destruct (@add_raise_keeps_buffers
              (StatisticsAccumulator 0 (Some [2; 3]%nat) false)
              (Arr (mk_ndarray [2; 2]%nat [1; 2; 3; 4]%R))
              ValueError eq_refl) as [HM2 Hmean].
  split; [exact HM2 | exact (Hmean eq_refl eq_refl)].
Defined.

(** ** The mean before the first sample *)

(** C10.  An accumulator built with a shape that has counted no sample
    returns as its mean the array of zeros of that shape: no error, no
    [None]. *)
Theorem mean_of_empty_shaped_accumulator
    (d : Z) (s : list nat) (rc : bool) (self : accumulator) :
  reachable (StatisticsAccumulator d (Some s) rc) self ->
  count self = 0%nat ->
  mean self = Ok (Some (Arr (zeros s))).
Proof.
  intros Hreach Hcount.
  destruct Hreach as [ | v self' Hreach' Hwf ].
  - unfold mean, StatisticsAccumulator, reshape, zeros, size. simpl.
    now rewrite Nat.mul_1_r, Nat.eqb_refl.
  - rewrite add_count in Hcount. destruct (_mean self'); discriminate.
Qed.

Lemma mean_of_empty_shaped_accumulator_witness :
  mean (StatisticsAccumulator 1 (Some [2; 3]%nat) true)
  = Ok (Some (Arr (zeros [2; 3]%nat))).
Proof.
  apply (@mean_of_empty_shaped_accumulator 1%Z [2; 3]%nat true).
  - apply reach_init.
  - reflexivity.
Defined.

(** ** The covariance update *)

Lemma outer_nth (a b : list R) :
  forall i j : nat,
    (i < length a)%nat -> (j < length b)%nat ->
    nth (i * length b + j)
      (flat_map (fun x => map (fun y => (x * y)%R) b) a) 0%R
    = (nth i a 0 * nth j b 0)%R.
Proof.
  induction a as [ | x a IH ]; intros i j Hi Hj; simpl in Hi; [lia | ].
  simpl flat_map. destruct i as [ | i ].
  - rewrite app_nth1 by (rewrite length_map; simpl; lia).
    simpl. now rewrite NpFacts.map_nth_lt.
  - rewrite app_nth2 by (rewrite length_map; simpl; lia).
    rewrite length_map.
    replace (S i * length b + j - length b)%nat
      with (i * length b + j)%nat by (simpl; lia).
    simpl. apply IH; lia.
Qed.

Lemma outer_nth_cols (a b : list R) (n i j : nat) :
  length b = n -> (i < length a)%nat -> (j < n)%nat ->
  nth (i * n + j) (flat_map (fun x => map (fun y => (x * y)%R) b) a) 0%R
  = (nth i a 0 * nth j b 0)%R.
Proof. intros <-. apply outer_nth. Qed.

Lemma delta_of_nth (n : nat) (dv dm : list R) (k : nat) :
  length dv = n -> length dm = n -> (k < n)%nat ->
  nth k (delta_of n dv dm) 0%R = (nth k dv 0 - nth k dm 0)%R.
Proof.
  intros Hv Hm Hk. unfold delta_of.
  rewrite AddFacts.stretch_same by exact Hv.
  apply NpFacts.zip_with_nth; lia.
Qed.

(** One entry of the second moment after the update with covariances. *)
Lemma cov_M2_after_nth (c : Z) (n : nat) (dM delta : list R) (i j : nat) :
  length dM = (n * n)%nat -> length delta = n ->
  (i < n)%nat -> (j < n)%nat ->
  nth (i * n + j) (cov_M2_after c dM delta) 0%R
  = (nth (i * n + j) dM 0
     + (IZR (c - 1) * (nth i delta 0 * nth j delta 0)
        - nth (i * n + j) dM 0 / IZR c))%R.
Proof.
  intros HM Hd Hi Hj. unfold cov_M2_after.
  assert (Hij : (i * n + j < n * n)%nat) by nia.
  assert (Hout : length (flat_map
                           (fun x => map (fun y => (x * y)%R) delta) delta)
                 = (n * n)%nat)
    by (rewrite AddFacts.outer_data_length; congruence).
  rewrite NpFacts.zip_with_nth;
    [ | lia
      | rewrite NpFacts.zip_with_length, !length_map, Hout; lia ].
  rewrite NpFacts.zip_with_nth by (rewrite length_map; lia).
  rewrite !NpFacts.map_nth_lt by lia.
  rewrite (outer_nth_cols _ _ Hd) by (rewrite ?Hd; assumption).
  reflexivity.
Qed.

(** The same update on an accumulator that holds numbers: the second
    moment, the number 0 after the first sample, becomes a 1 x 1 matrix. *)
Lemma add_scalar_cov (c : nat) (d : Z) (m M x : R) (M2 : option value) :
  M2 = Some (Num M) \/ M2 = Some (Arr (mk_ndarray [1; 1]%nat [M])) ->
  add (Num x) (mk_accumulator c d true None (Some (Num m)) M2)
  = (mk_accumulator (S c) d true None
       (Some (Num (m + (x - m) / IZR (Z.of_nat (S c)))))
       (Some (Arr (mk_ndarray [1; 1]%nat
          [M + (IZR (Z.of_nat (S c) - 1) * ((x - m) * (x - m))
                - M / IZR (Z.of_nat (S c)))]))),
     Ok tt)%R.
Proof. intros [-> | ->]; reflexivity. Qed.

(** C1.  With covariance tracking, a fresh accumulator with [ddof = 0] fed
    the numbers 1 and 2 returns from both calls and holds their mean 3/2,
    but reports the variance 1/2, where the population variance
    [sum((x - mean)^2) / count] is 1/4; after the number 1 alone, [var]
    raises [ValueError]. *)
Theorem scalar_variance_under_cov_tracking :
  let run :=
    add_many [Num 1%R; Num 2%R] (StatisticsAccumulator 0 None true) in
  snd run = Ok tt
  /\ count (fst run) = 2%nat
  /\ mean (fst run) = Ok (Some (Num (3 / 2)%R))
  /\ batch_mean [1; 2]%R = (3 / 2)%R
  /\ var (fst run) = Ok (Arr (mk_ndarray [1%nat] [(1 / 2)%R]))
  /\ batch_variance [1; 2]%R = (1 / 4)%R
  /\ var (fst (add (Num 1%R) (StatisticsAccumulator 0 None true)))
     = Raise ValueError.
Proof.
  cbv zeta.
  split; [reflexivity | ]. split; [reflexivity | ].
  split; [ | split; [ | split; [ | split ] ] ].
  - cbv -[Rplus Rminus Rmult Rdiv Rinv Ropp IZR]. do 3 f_equal. field.
  - cbv -[Rplus Rminus Rmult Rdiv Rinv Ropp IZR INR]. simpl INR. field.
  - cbv -[Rplus Rminus Rmult Rdiv Rinv Ropp IZR].
    do 3 f_equal. apply (f_equal2 (@cons R)); [field | reflexivity].
  - cbv -[Rplus Rminus Rmult Rdiv Rinv Ropp IZR INR]. simpl INR. field.
  - reflexivity.
Qed.

(** On an accumulator that tracks covariances, [add] of a sample of the
    accumulator's size (an array on an array accumulator, a number on an
    accumulator of numbers) changes every entry of [_M2] by
    [(count - 1) * outer(delta, delta) - M2 / count], with [delta] the
    sample minus the mean before the call and [count] the counter after
    it: the outer product is not divided by [count]. *)
Lemma add_cov_entries :
  (forall (self : accumulator) (v : value),
      array_state self = true ->
      ret_cov self = true ->
      wf_value v = true ->
      vsize v = acc_size self ->
      exists self' : accumulator,
        add v self = (self', Ok tt)
        /\ count self' = S (count self)
        /\ forall i j : nat,
            (i < acc_size self)%nat -> (j < acc_size self)%nat ->
            let delta k :=
              (vec_at (Some (Arr (ravel v))) k - vec_at (_mean self) k)%R in
            mat_at (_M2 self') i j
            = (mat_at (_M2 self) i j
               + (IZR (zcount self' - 1) * (delta i * delta j)
                  - mat_at (_M2 self) i j / IZR (zcount self')))%R)
  /\ (forall (self : accumulator) (m M x : R),
         ret_cov self = true ->
         shape self = None ->
         _mean self = Some (Num m) ->
         _M2 self = Some (Num M)
         \/ _M2 self = Some (Arr (mk_ndarray [1; 1]%nat [M])) ->
         exists self' : accumulator,
           add (Num x) self = (self', Ok tt)
           /\ count self' = S (count self)
           /\ mat_at (_M2 self') 0 0
              = (M + (IZR (zcount self' - 1) * ((x - m) * (x - m))
                      - M / IZR (zcount self')))%R).
Proof.
  split.
  - intros self v Hst Hrc Hwf Hsz.
    destruct (array_state_inv self Hst) as (s & dm & dM & Hself & Hdm & HdM).
    destruct (ArrFacts.ravel_wf v Hwf) as (dv & Hravel & Hdv).
    rewrite Hrc in Hself, HdM.
    assert (Hn : acc_size self = prod s) by (rewrite Hself; reflexivity).
    rewrite Hn in *. rewrite Hsz in Hravel, Hdv.
    assert (Hdelta : length (delta_of (prod s) dv dm) = prod s)
      by (apply AddFacts.delta_of_length; auto).
    assert (Hmean : _mean self = Some (Arr (mk_ndarray [prod s] dm)))
      by (rewrite Hself; reflexivity).
    assert (HM2 : _M2 self = Some (Arr (mk_ndarray [prod s; prod s] dM)))
      by (rewrite Hself; reflexivity).
    eexists. split; [ | split ].
    + rewrite Hself at 1.
      apply (@AddFacts.add_array_cov (count self) (ddof self) s v (prod s)
               dv dm dM Hravel Hdv Hdm (or_introl eq_refl) HdM).
    + reflexivity.
    + intros i j Hi Hj. cbv zeta.
      rewrite Hmean, HM2, Hravel. unfold zcount.
      cbn [mat_at vec_at _M2 _mean count nd_shape nd_data].
      rewrite cov_M2_after_nth by assumption.
      rewrite !delta_of_nth by assumption.
      reflexivity.
  - intros [c d rc sh mn M2] m M x Hrc Hsh Hmean HM2.
    simpl in Hrc, Hsh, Hmean, HM2. subst rc sh mn.
    rewrite (add_scalar_cov c d m x HM2).
    eexists. split; [reflexivity | ]. split; reflexivity.
Qed.

(** C2.  An accumulator built with shape [(2,)] and covariance tracking
    ([ddof = 0]) is fed [[1,2]], [[2,4]], [[3,6]].  At the second sample
    entry (0,0) of [_M2] becomes 1, where the update worded in the
    specification gives 1/2.  After the third, [cov] reports
    [31/18 * [[1,2],[2,4]]] and [var] its diagonal, where the population
    covariance of the three samples is [2/3 * [[1,2],[2,4]]] and the same
    accumulator without covariance tracking reports the variances
    [[2/3, 8/3]]. *)
Theorem cov_of_correlated_samples :
  let acc0 := StatisticsAccumulator 0 (Some [2%nat]) true in
  let acc1 := fst (add sample_12 acc0) in
  let acc2 := fst (add sample_24 acc1) in
  let delta0 := (vec_at (Some sample_24) 0 - vec_at (_mean acc1) 0)%R in
  let run := add_many [sample_12; sample_24; sample_36] acc0 in
  let rows := [[1; 2]; [2; 4]; [3; 6]]%R in
  mat_at (_M2 acc2) 0 0 = 1%R
  /\ spec_cov_update (zcount acc2) (mat_at (_M2 acc1) 0 0) delta0 delta0
     = (1 / 2)%R
  /\ snd run = Ok tt
  /\ cov (fst run)
     = Ok (Arr (mk_ndarray [2; 2]%nat
                  [31 / 18; 31 / 9; 31 / 9; 62 / 9]%R))
  /\ var (fst run) = Ok (Arr (mk_ndarray [2%nat] [31 / 18; 62 / 9]%R))
  /\ (batch_covariance rows 0 0 = 2 / 3
      /\ batch_covariance rows 0 1 = 4 / 3
      /\ batch_covariance rows 1 0 = 4 / 3
      /\ batch_covariance rows 1 1 = 8 / 3)%R
  /\ var (fst (add_many [sample_12; sample_24; sample_36]
                 (StatisticsAccumulator 0 (Some [2%nat]) false)))
     = Ok (Arr (mk_ndarray [2%nat] [2 / 3; 8 / 3]%R)).
Proof.
  cbv zeta.
  split; [ | split; [ | split; [ | split; [ | split; [ | split ] ] ] ] ].
  - cbv -[Rplus Rminus Rmult Rdiv Rinv Ropp IZR]. lra.
  - cbv -[Rplus Rminus Rmult Rdiv Rinv Ropp IZR]. lra.
  - reflexivity.
  - cbv -[Rplus Rminus Rmult Rdiv Rinv Ropp IZR].
    do 3 f_equal.
    repeat (apply (f_equal2 (@cons R)); [field | ]). reflexivity.
  - cbv -[Rplus Rminus Rmult Rdiv Rinv Ropp IZR].
    do 3 f_equal.
    repeat (apply (f_equal2 (@cons R)); [field | ]). reflexivity.
  - repeat split;
      cbv -[Rplus Rminus Rmult Rdiv Rinv Ropp IZR INR]; simpl INR; field.
  - cbv -[Rplus Rminus Rmult Rdiv Rinv Ropp IZR].
    do 3 f_equal.
    repeat (apply (f_equal2 (@cons R)); [field | ]). reflexivity.
Qed.

(** ** The [var] property *)

(** [var] raises [RuntimeError] exactly when [count <= ddof]. *)
Lemma var_runtime_error_iff (self : accumulator) :
  var self = Raise RuntimeError <-> (zcount self <= ddof self)%Z.
Proof.
  split; [ | apply var_too_few ].
  unfold var. destruct (zcount self <=? ddof self)%Z eqn:E.
  - intros _. now apply Z.leb_le.
  - destruct self as [c d rc sh mn [ [ x | [[ | r [ | k [ | ? ? ]]] a] ] | ]];
      destruct rc; destruct sh; cbn; unfold reshape; cbn;
      try discriminate;
      match goal with
      | |- context [if ?b then _ else _] => destruct b; cbn; discriminate
      end.
Qed.

Lemma diag_from_length (r c : nat) :
  forall (i : nat) (dM : list R),
    (i + r <= c)%nat -> length (diag_from i r c dM) = r.
Proof.
  induction r as [ | r IH ]; intros i dM H; simpl; auto.
  assert (E : (i <? c)%nat = true) by (apply Nat.ltb_lt; lia).
  rewrite E. simpl. rewrite IH by lia. reflexivity.
Qed.

(** With an array shape and [count > ddof], [var] returns [_M2], or its
    diagonal when covariances are tracked, divided by [count - ddof] and
    given the accumulator's shape. *)
Lemma var_array_state (self : accumulator) :
  array_state self = true ->
  (ddof self < zcount self)%Z ->
  exists (s : list nat) (dM : list R),
    shape self = Some s
    /\ _M2 self
       = Some (Arr (mk_ndarray
                      (if ret_cov self then [prod s; prod s] else [prod s])
                      dM))
    /\ var self
       = Ok (Arr (mk_ndarray s
                    (map (fun x => (x / IZR (zcount self - ddof self))%R)
                       (if ret_cov self
                        then diag_from 0 (prod s) (prod s) dM
                        else dM)))).
Proof.
  intros Hst Hlt.
  destruct (array_state_inv self Hst) as (s & dm & dM & Hself & Hdm & HdM).
  exists s, dM.
  assert (Hshape : shape self = Some s) by (rewrite Hself; reflexivity).
  assert (HM2 : _M2 self
                = Some (Arr (mk_ndarray
                               (if ret_cov self then [prod s; prod s]
                                else [prod s]) dM)))
    by (rewrite Hself at 1; reflexivity).
  split; [exact Hshape | ]. split; [exact HM2 | ].
  unfold var. apply Z.leb_gt in Hlt. rewrite Hlt, HM2, Hshape.
  destruct (ret_cov self); cbn; unfold reshape, size; cbn;
    rewrite ?Nat.min_id, Nat.mul_1_r, Nat.eqb_refl; reflexivity.
Qed.

(** C6.  A covariance-tracking accumulator whose first sample is a number
    holds [count = 1 > ddof = 0] and [_M2 = 0], a number: [np.diag] has no
    diagonal to take and [var] raises [ValueError]. *)
Theorem var_scalar_cov_first_sample_raises :
  let acc := fst (add (Num 1%R) (StatisticsAccumulator 0 None true)) in
  snd (add (Num 1%R) (StatisticsAccumulator 0 None true)) = Ok tt
  /\ count acc = 1%nat
  /\ ddof acc = 0%Z
  /\ _M2 acc = Some (Num 0%R)
  /\ var acc = Raise ValueError.
Proof. cbv zeta. repeat split. Qed.

(** ** The series of [sampling_distribution_cv] *)

Lemma last_map_seq (f : nat -> Z) (m : nat) (d : Z) :
  last (map f (seq 0 (S m))) d = f m.
Proof.
  rewrite seq_S, map_app. simpl. apply last_last.
Qed.

(** C8, at [num = 4]: the indices are 1 and 3; 3 is larger than
    [num - 2 = 2], and 2 is not an index. *)
Lemma cv_indices_exceed_spec :
  cv_indices 4 = [1; 3]%Z
  /\ spec_cv_indices 4 = [1]%Z
  /\ In 3%Z (cv_indices 4)
  /\ (3 > 4 - 2)%Z
  /\ ~ In (4 - 2)%Z (cv_indices 4)
  /\ cv_indices 4 <> spec_cv_indices 4.
Proof.
  split; [reflexivity | ]. split; [reflexivity | ].
  split; [simpl; auto | ]. split; [lia | ].
  split; [ | discriminate ].
  simpl. intros [H | [H | H]]; try discriminate H; exact H.
Qed.

(** C8, amended.  For [num >= 2] the series runs over the indices
    [1 - num mod 2, 1 - num mod 2 + 2, ...] up to and including [num - 1]:
    each [i] of [0 .. num - 1] with [num - 1 - i] even, once, in increasing
    order; no index is larger than [num - 1], and for [x >= 0] the value of
    [sampling_distribution_cv] is the sum of the terms at these indices
    times the three factors. *)
Theorem cv_indices_range (n : Z) :
  (2 <= n)%Z ->
  cv_indices n
  = map (fun k => (1 - n mod 2 + 2 * Z.of_nat k)%Z)
        (seq 0 (Z.to_nat ((n + n mod 2) / 2)))
  /\ (forall i : Z,
         In i (cv_indices n)
         <-> (0 <= i <= n - 1 /\ (n - 1 - i) mod 2 = 0)%Z)
  /\ hd 0%Z (cv_indices n) = (1 - n mod 2)%Z
  /\ last (cv_indices n) 0%Z = (n - 1)%Z
  /\ NoDup (cv_indices n)
  /\ (forall (gamma factorial : R -> R) (x cv : R),
         (0 <= x)%R ->
         sampling_distribution_cv gamma factorial x cv n
         = (py_sum (map (cv_term gamma factorial (x * x) cv n) (cv_indices n))
            * (2 / (R_sqrt.sqrt PI * gamma (0.5 * IZR (n - 1))))
            * (powerRZ x (n - 2) / Rpower (1 + x * x) (0.5 * IZR n))
            * exp (- 0.5 * IZR n / powerRZ cv 2 * (x * x) / (1 + x * x)))%R).
Proof.
  intros Hn.
  pose proof (Z.mod_pos_bound n 2 ltac:(lia)) as Hr.
  pose proof (Z.div_mod n 2 ltac:(lia)) as Hq.
  set (r := (n mod 2)%Z) in *. set (q := (n / 2)%Z) in *.
  assert (Hlen : ((n - (1 - r) + 2 - 1) / 2 = q + r)%Z).
  { replace (n - (1 - r) + 2 - 1)%Z with ((q + r) * 2)%Z by lia.
    apply Z.div_mul. lia. }
  assert (Hlen' : ((n + r) / 2 = q + r)%Z).
  { replace (n + r)%Z with ((q + r) * 2)%Z by lia. apply Z.div_mul. lia. }
  assert (Hdef : cv_indices n
                 = map (fun k => (1 - r + 2 * Z.of_nat k)%Z)
                       (seq 0 (Z.to_nat (q + r)))).
  { unfold cv_indices, py_range. fold r. now rewrite Hlen. }
  assert (Hpos : (1 <= q + r)%Z) by lia.
  destruct (Z.to_nat (q + r)) as [ | m ] eqn:Em; [lia | ].
  split; [now rewrite Hlen', Em | ].
  rewrite Hdef.
  split; [ | split; [ | split; [ | split ] ] ].
  - intros i. rewrite in_map_iff. split.
    + intros (k & <- & Hk). apply in_seq in Hk.
      split; [lia | ].
      replace (n - 1 - (1 - r + 2 * Z.of_nat k))%Z
        with ((q + r - 1 - Z.of_nat k) * 2)%Z by lia.
      apply Z.mod_mul. lia.
    + intros (Hi & Hpar).
      apply Z.mod_divide in Hpar; [ | lia ].
      destruct Hpar as (t & Ht).
      exists (Z.to_nat (q + r - 1 - t)). split; [ | apply in_seq ]; lia.
  - simpl. lia.
  - rewrite last_map_seq. lia.
  - apply Finite.Injective_map_NoDup; [ | apply seq_NoDup ].
    intros a b Hab. lia.
  - intros gamma factorial x cv Hx. unfold sampling_distribution_cv.
    destruct (Rlt_dec x 0) as [Hneg | _]; [lra | ].
    now rewrite Hdef.
Qed.

Lemma cv_indices_range_witness :
  last (cv_indices 5) 0%Z = (5 - 1)%Z.
Proof.
  apply (@cv_indices_range 5%Z). lia.
Defined.

(** * Further properties of the module *)

(** ** Streams of samples *)

(** Feeding a stream in two parts: the second part is fed to the state the
    first part leaves, and is not fed at all when the first part raises. *)
Theorem add_many_app (vs ws : list value) (self : accumulator) :
  add_many (vs ++ ws) self
  = match add_many vs self with
    | (self', Ok _) => add_many ws self'
    | (self', Raise e) => (self', Raise e)
    end.
Proof.
  revert self. induction vs as [ | v vs IH ]; intros self.
  - reflexivity.
  - change (add_many ((v :: vs) ++ ws) self)
      with (pbind (add v) (fun _ => add_many (vs ++ ws)) self).
    change (add_many (v :: vs) self)
      with (pbind (add v) (fun _ => add_many vs) self).
    unfold pbind. destruct (add v self) as [self1 [ [] | e ]].
    + apply IH.
    + reflexivity.
Qed.

(** [add] assigns the buffers on every path. *)
Lemma add_mean_assigned (v : value) (self : accumulator) :
  _mean (fst (add v self)) <> None.
Proof.
  destruct self as [c d rc sh [ m0 | ] [ M | ]]; destruct rc; destruct v;
    unfold_add; break_result; discriminate.
Qed.

(** [add] never assigns [ddof] or [ret_cov], and it assigns [shape] only
    when the buffers are missing. *)
Lemma add_frame (v : value) (self : accumulator) :
  ddof (fst (add v self)) = ddof self
  /\ ret_cov (fst (add v self)) = ret_cov self
  /\ (_mean self <> None -> shape (fst (add v self)) = shape self).
Proof.
  destruct self as [c d rc sh [ m0 | ] [ M | ]]; destruct rc; destruct v;
    unfold_add; break_result; repeat split; intros H;
    first [reflexivity | now contradiction H].
Qed.

Lemma add_many_keeps_config (vs : list value) (self : accumulator) :
  ddof (fst (add_many vs self)) = ddof self
  /\ ret_cov (fst (add_many vs self)) = ret_cov self
  /\ (_mean self <> None -> shape (fst (add_many vs self)) = shape self).
Proof.
  revert self. induction vs as [ | v vs IH ]; intros self.
  - simpl. auto.
  - change (add_many (v :: vs) self)
      with (pbind (add v) (fun _ => add_many vs) self).
    unfold pbind.
    destruct (add_frame v self) as (Hd & Hr & Hs).
    pose proof (add_mean_assigned v self) as Hm.
    destruct (add v self) as [self1 [ [] | e ]]; simpl in *.
    + destruct (IH self1) as (Hd' & Hr' & Hs').
      repeat split; try congruence.
      intros H. rewrite Hs' by exact Hm. now apply Hs.
    + auto.
Qed.

(** Whatever is fed to an accumulator and whether the calls return or
    raise, [ddof] and [ret_cov] stay as constructed, and the shape stays as
    it is once the buffers exist. *)
Theorem add_many_frame (vs : list value) (self : accumulator) :
  ddof (fst (add_many vs self)) = ddof self
  /\ ret_cov (fst (add_many vs self)) = ret_cov self
  /\ (_mean self <> None -> shape (fst (add_many vs self)) = shape self).
Proof. exact (add_many_keeps_config vs self). Qed.

Lemma add_many_frame_witness :
  shape (fst (add_many [sample_12; Num 1%R]
                (StatisticsAccumulator 1 (Some [2%nat]) true)))
  = Some [2%nat].
Proof.
  apply (proj2 (proj2 (@add_many_frame [sample_12; Num 1%R]
                         (StatisticsAccumulator 1 (Some [2%nat]) true)))).
  discriminate.
Defined.

Lemma add_many_count_from (vs : list value) :
  forall self self' : accumulator,
    _mean self <> None ->
    add_many vs self = (self', Ok tt) ->
    count self' = (count self + length vs)%nat.
Proof.
  induction vs as [ | v vs IH ]; intros self self' Hm H.
  - simpl in H. unfold pret in H. inversion H. simpl. lia.
  - change (add_many (v :: vs) self)
      with (pbind (add v) (fun _ => add_many vs) self) in H.
    unfold pbind in H.
    pose proof (add_count v self) as Hc.
    pose proof (add_mean_assigned v self) as Hm1.
    destruct (add v self) as [self1 [ [] | e ]]; simpl in *;
      [ | discriminate H ].
    rewrite (IH self1 self' Hm1 H), Hc.
    destruct (_mean self); [lia | contradiction].
Qed.

(** A new accumulator that has taken in a stream without raising has
    counted every sample of it. *)
Theorem add_many_count
    (d : Z) (sh : option (list nat)) (rc : bool)
    (vs : list value) (self' : accumulator) :
  add_many vs (StatisticsAccumulator d sh rc) = (self', Ok tt) ->
  count self' = length vs.
Proof.
  intros H. destruct sh as [ s | ].
  - apply add_many_count_from in H; [exact H | discriminate].
  - destruct vs as [ | v vs ].
    + simpl in H. unfold pret in H. now inversion H.
    + change (add_many (v :: vs) (StatisticsAccumulator d None rc))
        with (pbind (add v) (fun _ => add_many vs)
                (StatisticsAccumulator d None rc)) in H.
      unfold pbind in H.
      pose proof (add_count v (StatisticsAccumulator d None rc)) as Hc.
      pose proof (add_mean_assigned v (StatisticsAccumulator d None rc))
        as Hm.
      destruct (add v (StatisticsAccumulator d None rc))
        as [self1 [ [] | e ]]; simpl in *; [ | discriminate H ].
      rewrite (@add_many_count_from vs self1 self' Hm H), Hc. lia.
Qed.

Lemma add_many_count_witness :
  count (fst (add_many [sample_12; sample_24; sample_36]
                (StatisticsAccumulator 0 None true))) = 3%nat.
Proof.
  apply (@add_many_count 0%Z None true [sample_12; sample_24; sample_36]
           (fst (add_many [sample_12; sample_24; sample_36]
                   (StatisticsAccumulator 0 None true)))).
  reflexivity.
Defined.

(** ** [mean_std_online] *)

Lemma sum_sq_dev_sumsq (xs : list R) :
  xs <> [] ->
  sum_sq_dev xs
  = (sumsq xs - rsum xs * rsum xs / INR (length xs))%R.
Proof.
  intros Hne.
  assert (Hn : INR (length xs) <> 0%R).
  { apply not_0_INR. destruct xs; [congruence | discriminate]. }
  unfold sum_sq_dev. rewrite BatchFacts.deviations_expand.
  unfold batch_mean. field. exact Hn.
Qed.

Lemma rsum_squares_nonneg (c : R) (xs : list R) :
  (0 <= rsum (map (fun x => (x - c) ^ 2) xs))%R.
Proof.
  induction xs as [ | x xs IH ]; simpl.
  - lra.
  - pose proof (pow2_ge_0 (x - c)) as H. simpl in H, IH. nra.
Qed.

Lemma sum_sq_dev_nonneg (xs : list R) : (0 <= sum_sq_dev xs)%R.
Proof. apply rsum_squares_nonneg. Qed.

Lemma mean_std_online_numbers_core (d : Z) (xs : list R) :
  xs <> [] ->
  (d < Z.of_nat (length xs))%Z ->
  mean_std_online (map Num xs) d None
  = Ok (Val (Num (batch_mean xs)),
        Val (Num (R_sqrt.sqrt
                    (sum_sq_dev xs / IZR (Z.of_nat (length xs) - d)))))
  /\ (0 <= sum_sq_dev xs / IZR (Z.of_nat (length xs) - d))%R.
Proof.
  intros Hne Hd. split.
  - unfold mean_std_online.
    rewrite add_many_scalar by exact Hne.
    unfold mean, std, var, scalar_acc, zcount. simpl.
    destruct (Z.of_nat (length xs) <=? d)%Z eqn:E;
      [apply Z.leb_le in E; lia | ].
    simpl. now rewrite <- sum_sq_dev_sumsq.
  - apply Rmult_le_pos; [apply sum_sq_dev_nonneg | ].
    apply Rlt_le, Rinv_0_lt_compat, IZR_lt. lia.
Qed.

(** With at least one number and more numbers than [ddof],
    [mean_std_online] returns their mean and the square root of the sum of
    squared deviations over [count - ddof], a non-negative quotient. *)
Theorem mean_std_online_numbers (d : Z) (xs : list R) :
  xs <> [] ->
  (d < Z.of_nat (length xs))%Z ->
  mean_std_online (map Num xs) d None
  = Ok (Val (Num (batch_mean xs)),
        Val (Num (R_sqrt.sqrt
                    (sum_sq_dev xs / IZR (Z.of_nat (length xs) - d)))))
  /\ (0 <= sum_sq_dev xs / IZR (Z.of_nat (length xs) - d))%R.
Proof. exact (@mean_std_online_numbers_core d xs). Qed.

Lemma mean_std_online_numbers_witness :
  mean_std_online (map Num [1; 2; 4]%R) 1 None
  = Ok (Val (Num (batch_mean [1; 2; 4]%R)),
        Val (Num (R_sqrt.sqrt (sum_sq_dev [1; 2; 4]%R / IZR (3 - 1))))).
Proof.
  apply (@mean_std_online_numbers 1%Z [1; 2; 4]%R).
  - discriminate.
  - simpl. lia.
Defined.

(** With no more numbers than [ddof], the empty stream included,
    [mean_std_online] raises the [RuntimeError] of [var]. *)
Theorem mean_std_online_too_few (d : Z) (xs : list R) :
  (Z.of_nat (length xs) <= d)%Z ->
  mean_std_online (map Num xs) d None = Raise RuntimeError.
Proof.
  intros Hd. destruct (list_eq_dec Req_dec_T xs []) as [-> | Hne].
  - apply mean_std_online_empty. simpl in Hd. exact Hd.
  - unfold mean_std_online. rewrite add_many_scalar by exact Hne.
    unfold std. rewrite var_too_few by exact Hd. reflexivity.
Qed.

Lemma mean_std_online_too_few_witness :
  mean_std_online (map Num [5]%R) 1 None = Raise RuntimeError.
Proof.
  apply (@mean_std_online_too_few 1%Z [5]%R). simpl. lia.
Defined.

(** The first [add] of an array gives the accumulator the flat buffers of
    the array's shape, whatever its attributes were. *)
Lemma initialize_array_state (self : accumulator) (a : ndarray) :
  _mean self = None ->
  wf_ndarray a = true ->
  array_state (fst (add (Arr a) self)) = true.
Proof.
  intros Hm Hwf. apply Nat.eqb_eq in Hwf.
  destruct self as [c d rc sh mn M2]. simpl in Hm. subst mn.
  destruct a as [s da]. unfold size in Hwf. simpl in Hwf.
  destruct rc; unfold add, _initialize, pbind, get, modify; simpl;
    unfold array_state, size; simpl;
    rewrite !ArrFacts.shape_eqb_refl; unfold wf_ndarray, size; simpl;
    rewrite ?repeat_length, ?Nat.mul_1_r, Hwf, !Nat.eqb_refl; reflexivity.
Qed.

Lemma initialize_number_shape (self : accumulator) (x : R) :
  _mean self = None -> shape (fst (add (Num x) self)) = None.
Proof.
  intros Hm. destruct self as [c d rc sh mn M2]. simpl in Hm. subst mn.
  reflexivity.
Qed.

(** The consistent states are closed under [add], returning or raising. *)
Lemma consistent_add (v : value) (self : accumulator) :
  consistent_state self = true ->
  wf_value v = true ->
  consistent_state (fst (add v self)) = true.
Proof.
  intros Hc Hwf. unfold consistent_state in Hc.
  destruct (shape self) as [ s | ] eqn:Hs.
  - pose proof (array_state_add self v Hc Hwf) as H.
    unfold consistent_state.
    destruct (shape (fst (add v self))); [exact H | reflexivity].
  - destruct (_mean self) as [ m | ] eqn:Hm.
    + destruct (add_frame v self) as (_ & _ & Hshape).
      unfold consistent_state. rewrite Hshape by (rewrite Hm; discriminate).
      now rewrite Hs.
    + destruct v as [ x | a ].
      * unfold consistent_state.
        now rewrite (initialize_number_shape self x Hm).
      * pose proof (initialize_array_state self a Hm Hwf) as H.
        unfold consistent_state.
        destruct (shape (fst (add (Arr a) self))); [exact H | reflexivity].
Qed.

Lemma consistent_add_many (vs : list value) :
  forall self : accumulator,
    consistent_state self = true ->
    Forall (fun v => wf_value v = true) vs ->
    consistent_state (fst (add_many vs self)) = true.
Proof.
  induction vs as [ | v vs IH ]; intros self Hc Hwf.
  - exact Hc.
  - inversion Hwf as [ | v' vs' Hv Hvs ]; subst.
    change (add_many (v :: vs) self)
      with (pbind (add v) (fun _ => add_many vs) self).
    unfold pbind. pose proof (consistent_add v self Hc Hv) as H1.
    destruct (add v self) as [self1 [ [] | e ]]; simpl in *.
    + now apply IH.
    + exact H1.
Qed.

Lemma add_many_mean_assigned (vs : list value) :
  forall self : accumulator,
    vs <> [] \/ _mean self <> None ->
    _mean (fst (add_many vs self)) <> None.
Proof.
  induction vs as [ | v vs IH ]; intros self H.
  - destruct H as [H | H]; [congruence | exact H].
  - change (add_many (v :: vs) self)
      with (pbind (add v) (fun _ => add_many vs) self).
    unfold pbind. pose proof (add_mean_assigned v self) as H1.
    destruct (add v self) as [self1 [ [] | e ]]; simpl in *.
    + apply IH. now right.
    + exact H1.
Qed.

Lemma consistent_init (d : Z) (sh : option (list nat)) (rc : bool) :
  consistent_state (StatisticsAccumulator d sh rc) = true.
Proof.
  destruct sh as [ s | ]; [ | reflexivity ].
  pose proof (array_state_init d s rc) as H.
  unfold consistent_state. exact H.
Qed.

(** Without covariance tracking, [var] on a consistent state returns or
    raises [RuntimeError] or [TypeError], never [ValueError]. *)
Lemma var_never_value_error (self : accumulator) :
  consistent_state self = true ->
  ret_cov self = false ->
  var self <> Raise ValueError.
Proof.
  intros Hc Hrc. unfold consistent_state in Hc.
  destruct (zcount self <=? ddof self)%Z eqn:E.
  - apply Z.leb_le in E. rewrite var_too_few by exact E. discriminate.
  - apply Z.leb_gt in E.
    destruct (shape self) as [ s | ] eqn:Hs.
    + destruct (var_array_state self Hc E) as (s' & dM & _ & _ & Hv).
      rewrite Hv. discriminate.
    + unfold var. apply Z.leb_gt in E. rewrite E, Hrc, Hs.
      destruct (_M2 self); simpl; discriminate.
Qed.

(** Neither [np.nan] fallback of [mean_std_online] is ever taken: whenever
    the function returns, [add_many] has returned, the first component is
    what [acc.mean] returned and the second what [acc.std] returned.  The
    mean is [None] only when no sample was added, and then [std] raises an
    error the handler does not catch; and [std] never raises the
    [ValueError] the handler is for. *)
Theorem mean_std_online_fallbacks_dead
    (data : list value) (d : Z) (sh : option (list nat))
    (m s : maybe_nan) :
  Forall (fun v => wf_value v = true) data ->
  mean_std_online data d sh = Ok (m, s) ->
  exists (acc : accumulator) (mv sv : value),
    add_many data (StatisticsAccumulator d sh false) = (acc, Ok tt)
    /\ mean acc = Ok (Some mv)
    /\ std acc = Ok sv
    /\ m = Val mv
    /\ s = Val sv.
Proof.
  intros Hwf H. unfold mean_std_online in H.
  pose proof (@consistent_add_many data
                (StatisticsAccumulator d sh false)
                (consistent_init d sh false) Hwf) as Hc.
  pose proof (add_many_keeps_config data
                (StatisticsAccumulator d sh false))
    as (_ & Hrc & _).
  assert (Hrc' : ret_cov (fst (add_many data
                   (StatisticsAccumulator d sh false))) = false)
    by (rewrite Hrc; destruct sh; reflexivity).
  pose proof (@var_never_value_error _ Hc Hrc') as Hvar.
  assert (Hmean : data <> [] \/ sh <> None ->
                  _mean (fst (add_many data
                     (StatisticsAccumulator d sh false))) <> None).
  { intros Hor. apply add_many_mean_assigned.
    destruct Hor as [Hd | Hsh]; [now left | right].
    destruct sh; [discriminate | congruence]. }
  destruct (add_many data (StatisticsAccumulator d sh false))
    as [acc [ [] | e ]] eqn:Eacc; simpl in *; [ | discriminate H ].
  assert (Hstd : std acc <> Raise ValueError).
  { unfold std. destruct (var acc) as [ v | e ]; simpl.
    - discriminate.
    - intros E. apply Hvar. exact E. }
  destruct (mean acc) as [ [ mv | ] | e' ] eqn:Emean; simpl in H;
    [ | | discriminate H ].
  - (* [acc.mean] returned a value *)
    destruct (std acc) as [ sv | e ] eqn:Estd; simpl in H.
    + inversion H. exists acc, mv, sv. repeat split; assumption.
    + destruct e; try discriminate H. now contradiction Hstd.
  - (* [acc.mean] returned [None]: no sample was added *)
    exfalso.
    assert (Hnone : shape acc = None /\ _mean acc = None).
    { unfold mean in Emean. destruct (shape acc) as [ s0 | ].
      - destruct (_mean acc) as [ [ x | a ] | ]; try discriminate Emean.
        simpl in Emean. destruct (reshape a s0); discriminate Emean.
      - split; [reflexivity | congruence]. }
    destruct Hnone as [Hs Hm].
    assert (Hd : data = [] /\ sh = None).
    { destruct data as [ | v0 data' ].
      - split; [reflexivity | ].
        destruct sh; [ | reflexivity ].
        exfalso. apply Hmean; [right; discriminate | exact Hm].
      - exfalso. apply Hmean; [left; discriminate | exact Hm]. }
    destruct Hd as [-> ->]. simpl in Eacc. unfold pret in Eacc.
    inversion Eacc; subst acc.
    unfold std, var in H. cbn in H.
    destruct (0 <=? d)%Z; discriminate H.
Qed.

Lemma mean_std_online_fallbacks_dead_witness :
  exists (acc : accumulator) (mv sv : value),
    add_many [Num 1%R; Num 3%R] (StatisticsAccumulator 0 None false)
    = (acc, Ok tt)
    /\ mean acc = Ok (Some mv)
    /\ std acc = Ok sv.
Proof.
  destruct (@mean_std_online_fallbacks_dead [Num 1%R; Num 3%R] 0%Z None
              _ _ ltac:(repeat constructor) eq_refl)
    as (acc & mv & sv & Hadd & Hm & Hs & _).
  exists acc, mv, sv. repeat split; assumption.
Defined.

(** ** Streams of arrays: Welford's recurrence on every element *)

Section WelfordFacts.

Local Open Scope R_scope.








End WelfordFacts.




(** ** Covariance tracking over arrays *)

(** One call of [add] keeps the second moment symmetric. *)
Lemma add_keeps_symmetry (self : accumulator) (v : value) :
  array_state self = true ->
  ret_cov self = true ->
  wf_value v = true ->
  symmetric_M2 self ->
  symmetric_M2 (fst (add v self)).
Proof.
  intros Hst Hrc Hwf Hsym.
  destruct (Nat.eq_dec (vsize v) (acc_size self)) as [E | E];
    [ | destruct (Nat.eq_dec (vsize v) 1) as [E1 | E1] ].
  3: { rewrite add_array_fail by assumption. exact Hsym. }
  all: assert (Hsz : vsize v = acc_size self \/ vsize v = 1%nat)
         by (first [now left | now right]);
       destruct (array_state_inv self Hst)
         as (s & dm & dM & Hself & Hdm & HdM);
       destruct (ArrFacts.ravel_wf v Hwf) as (dv & Hravel & Hdv);
       rewrite Hrc in Hself, HdM;
       assert (Hn : acc_size self = prod s) by (rewrite Hself; reflexivity);
       assert (HM2 : _M2 self
                     = Some (Arr (mk_ndarray [prod s; prod s] dM)))
         by (rewrite Hself; reflexivity);
       unfold symmetric_M2 in *; rewrite Hn in *; rewrite HM2 in Hsym;
       cbn [mat_at nd_shape nd_data] in Hsym;
       assert (Hdelta : length (delta_of (prod s) dv dm) = prod s)
         by (apply AddFacts.delta_of_length; [rewrite Hdv | ]; assumption);
       assert (Hadd :
         add v self
         = (mk_accumulator (S (count self)) (ddof self) true (Some s)
              (Some (Arr (mk_ndarray [prod s]
                 (mean_after (Z.of_nat (S (count self))) dm
                    (delta_of (prod s) dv dm)))))
              (Some (Arr (mk_ndarray [prod s; prod s]
                 (cov_M2_after (Z.of_nat (S (count self))) dM
                    (delta_of (prod s) dv dm))))),
            Ok tt))
         by (rewrite Hself at 1;
             apply (@AddFacts.add_array_cov (count self) (ddof self) s v
                      (vsize v) dv dm dM Hravel Hdv Hdm Hsz HdM));
       rewrite Hadd;
       cbn [fst acc_size shape _M2 mat_at nd_shape nd_data];
       intros i j Hi Hj;
       rewrite !cov_M2_after_nth by assumption;
       rewrite (Hsym i j Hi Hj); ring.
Qed.

Lemma reachable_symmetric (init self : accumulator) :
  reachable init self ->
  array_state init = true ->
  ret_cov init = true ->
  symmetric_M2 init ->
  array_state self = true /\ ret_cov self = true /\ symmetric_M2 self.
Proof.
  induction 1 as [ | v self Hreach IH Hwf ]; intros Hst Hrc Hsym.
  - auto.
  - destruct (IH Hst Hrc Hsym) as (Hst' & Hrc' & Hsym').
    split; [now apply array_state_add | ].
    split; [ | now apply add_keeps_symmetry ].
    destruct (add_frame v self) as (_ & Hr & _). congruence.
Qed.

(** The matrix of an accumulator built with a shape and with covariance
    tracking is symmetric after any calls of [add], returning or raising. *)
Theorem cov_matrix_symmetric
    (d : Z) (s : list nat) (self : accumulator) (i j : nat) :
  reachable (StatisticsAccumulator d (Some s) true) self ->
  (i < prod s)%nat -> (j < prod s)%nat ->
  mat_at (_M2 self) i j = mat_at (_M2 self) j i.
Proof.
  intros Hreach Hi Hj.
  assert (Hinit : symmetric_M2 (StatisticsAccumulator d (Some s) true)).
  { intros a b Ha Hb. unfold acc_size in Ha, Hb. simpl in Ha, Hb.
    unfold StatisticsAccumulator, zeros. cbn [_M2 mat_at nd_shape nd_data].
    now rewrite !nth_repeat. }
  destruct (reachable_symmetric Hreach (array_state_init d s true)
              eq_refl Hinit) as (Hst & _ & Hsym).
  assert (Hsize : acc_size self = prod s).
  { clear - Hreach. induction Hreach as [ | v self Hreach IH Hwf ].
    - reflexivity.
    - unfold acc_size in *.
      destruct (add_frame v self) as (_ & _ & Hs).
      rewrite Hs; [exact IH | ].
      pose proof (reachable_array_state Hreach (array_state_init d s true))
        as Harr.
      destruct (array_state_inv self Harr) as (s' & dm & dM & Hself & _).
      rewrite Hself. discriminate. }
  apply Hsym; rewrite Hsize; assumption.
Qed.

Lemma cov_matrix_symmetric_witness :
  let acc := fst (add_many [sample_12; sample_36]
                    (StatisticsAccumulator 0 (Some [2%nat]) true)) in
  mat_at (_M2 acc) 0 1 = mat_at (_M2 acc) 1 0.
Proof.
  cbv zeta.
  apply (@cov_matrix_symmetric 0%Z [2%nat]
           (fst (add_many [sample_12; sample_36]
                   (StatisticsAccumulator 0 (Some [2%nat]) true))) 0 1).
  - apply (reach_add sample_36
             (reach_add sample_12
                (reach_init (StatisticsAccumulator 0 (Some [2%nat]) true))
                eq_refl) eq_refl).
  - simpl. lia.
  - simpl. lia.
Defined.

Lemma diag_from_nth (r c : nat) :
  forall (i k : nat) (dM : list R),
    (k < r)%nat -> (i + r <= c)%nat ->
    nth k (diag_from i r c dM) 0%R = nth (k * c + (i + k)) dM 0%R.
Proof.
  induction r as [ | r IH ]; intros i k dM Hk Hic; [lia | ].
  simpl diag_from.
  assert (E : (i <? c)%nat = true) by (apply Nat.ltb_lt; lia).
  rewrite E. destruct k as [ | k ].
  - simpl. now rewrite Nat.add_0_r.
  - simpl nth. rewrite IH by lia. rewrite nth_skipn.
    f_equal. simpl. lia.
Qed.

(** With an array shape, covariance tracking and [count > ddof], the
    variance [var] returns is the diagonal of the matrix [cov] returns. *)
Theorem var_is_diagonal_of_cov (self : accumulator) :
  array_state self = true ->
  ret_cov self = true ->
  (ddof self < zcount self)%Z ->
  exists (s : list nat) (vs cs : list R),
    shape self = Some s
    /\ var self = Ok (Arr (mk_ndarray s vs))
    /\ cov self = Ok (Arr (mk_ndarray [prod s; prod s] cs))
    /\ forall k : nat,
        (k < prod s)%nat ->
        nth k vs 0%R = nth (k * prod s + k) cs 0%R.
Proof.
  intros Hst Hrc Hlt.
  destruct (var_array_state self Hst Hlt) as (s & dM & Hs & HM2 & Hvar).
  destruct (array_state_inv self Hst) as (s' & dm & dM' & Hself & _ & HdM).
  rewrite Hrc in *.
  assert (s' = s) by (rewrite Hself in Hs; simpl in Hs; congruence).
  subst s'.
  assert (dM' = dM) by (rewrite Hself in HM2; simpl in HM2; congruence).
  subst dM'.
  exists s, (map (fun x => (x / IZR (zcount self - ddof self))%R)
               (diag_from 0 (prod s) (prod s) dM)),
    (map (fun x => (x / IZR (zcount self - ddof self))%R) dM).
  split; [exact Hs | ]. split; [exact Hvar | ]. split.
  - unfold cov. apply Z.leb_gt in Hlt. rewrite Hlt, Hrc, HM2. reflexivity.
  - intros k Hk.
    assert (Hkk : (k * prod s + k < prod s * prod s)%nat) by nia.
    rewrite !NpFacts.map_nth_lt
      by (rewrite ?diag_from_length; lia).
    rewrite diag_from_nth by lia. reflexivity.
Qed.

Lemma var_is_diagonal_of_cov_witness :
  exists (s : list nat) (vs cs : list R),
    shape (fst (add_many [sample_12; sample_36]
                  (StatisticsAccumulator 0 None true))) = Some s
    /\ var (fst (add_many [sample_12; sample_36]
                   (StatisticsAccumulator 0 None true)))
       = Ok (Arr (mk_ndarray s vs))
    /\ cov (fst (add_many [sample_12; sample_36]
                   (StatisticsAccumulator 0 None true)))
       = Ok (Arr (mk_ndarray [prod s; prod s] cs))
    /\ forall k : nat,
        (k < prod s)%nat ->
        nth k vs 0%R = nth (k * prod s + k) cs 0%R.
Proof.
  apply (@var_is_diagonal_of_cov
           (fst (add_many [sample_12; sample_36]
                   (StatisticsAccumulator 0 None true)))).
  - reflexivity.
  - reflexivity.
  - reflexivity.
Defined.

(** ** The accessors on an accumulator with an array shape *)

(** On an accumulator with an array shape [var] raises nothing but the
    [RuntimeError] of too few items, exactly when [count <= ddof];
    otherwise it returns [_M2], or its diagonal when covariances are
    tracked, over [count - ddof], in the accumulator's shape. *)
Theorem var_on_array_accumulator (self : accumulator) :
  array_state self = true ->
  (var self = Raise RuntimeError <-> (zcount self <= ddof self)%Z)
  /\ (forall e : exn, var self = Raise e -> e = RuntimeError)
  /\ ((ddof self < zcount self)%Z ->
      exists (s : list nat) (dM : list R),
        shape self = Some s
        /\ _M2 self
           = Some (Arr (mk_ndarray
                          (if ret_cov self then [prod s; prod s]
                           else [prod s]) dM))
        /\ var self
           = Ok (Arr (mk_ndarray s
                        (map (fun x =>
                                (x / IZR (zcount self - ddof self))%R)
                           (if ret_cov self
                            then diag_from 0 (prod s) (prod s) dM
                            else dM))))).
Proof.
  intros Hst. split; [apply var_runtime_error_iff | ]. split.
  - intros e He.
    destruct (Z.le_gt_cases (zcount self) (ddof self)) as [Hle | Hgt].
    + rewrite var_too_few in He by exact Hle. congruence.
    + destruct (var_array_state self Hst Hgt) as (s & dM & _ & _ & Hv).
      rewrite Hv in He. discriminate He.
  - intros Hlt. exact (var_array_state self Hst Hlt).
Qed.

Lemma var_on_array_accumulator_witness :
  var (StatisticsAccumulator 0 (Some [2; 3]%nat) false)
  = Raise RuntimeError.
Proof.
  apply (proj1 (@var_on_array_accumulator
                  (StatisticsAccumulator 0 (Some [2; 3]%nat) false)
                  eq_refl)).
  vm_compute. discriminate.
Defined.

Lemma stretch_single (n : nat) (x : R) : stretch n [x] = repeat x n.
Proof.
  unfold stretch. simpl length.
  destruct (1 =? n)%nat eqn:E.
  - apply Nat.eqb_eq in E. now subst n.
  - apply NpFacts.concat_repeat_single.
Qed.

(** On an accumulator with an array shape a number is taken in as the
    array of that shape filled with it. *)
Theorem add_number_is_add_filled_array
    (self : accumulator) (s : list nat) (x : R) :
  array_state self = true ->
  shape self = Some s ->
  add (Num x) self = add (row_sample s (repeat x (prod s))) self.
Proof.
  intros Hst Hs.
  destruct (array_state_inv self Hst) as (s' & dm & dM & Hself & Hdm & HdM).
  assert (s' = s) by (rewrite Hself in Hs; simpl in Hs; congruence).
  subst s'.
  assert (Hrep : length (repeat x (prod s)) = prod s)
    by apply repeat_length.
  rewrite Hself. destruct (ret_cov self).
  - rewrite (@AddFacts.add_array_cov (count self) (ddof self) s (Num x)
               1%nat [x] dm dM eq_refl eq_refl Hdm (or_intror eq_refl) HdM).
    rewrite (@AddFacts.add_array_cov (count self) (ddof self) s
               (row_sample s (repeat x (prod s))) (prod s)
               (repeat x (prod s)) dm dM eq_refl Hrep Hdm
               (or_introl eq_refl) HdM).
    unfold delta_of.
    now rewrite stretch_single, (@AddFacts.stretch_same _ _ Hrep).
  - rewrite (@AddFacts.add_array_var (count self) (ddof self) s (Num x)
               1%nat [x] dm dM eq_refl eq_refl Hdm (or_intror eq_refl) HdM).
    rewrite (@AddFacts.add_array_var (count self) (ddof self) s
               (row_sample s (repeat x (prod s))) (prod s)
               (repeat x (prod s)) dm dM eq_refl Hrep Hdm
               (or_introl eq_refl) HdM).
    unfold delta_of, var_M2_after.
    now rewrite stretch_single, (@AddFacts.stretch_same _ _ Hrep).
Qed.

Lemma add_number_is_add_filled_array_witness :
  add (Num 5%R) (StatisticsAccumulator 0 (Some [2; 3]%nat) true)
  = add (row_sample [2; 3]%nat (repeat 5%R 6))
      (StatisticsAccumulator 0 (Some [2; 3]%nat) true).
Proof.
  apply (@add_number_is_add_filled_array
           (StatisticsAccumulator 0 (Some [2; 3]%nat) true)
           [2; 3]%nat 5%R eq_refl eq_refl).
Defined.

(** ** [mean_std_frequency_table] *)

Section FrequencyTable.

Local Open Scope R_scope.






End FrequencyTable.



(** ** Log-normal parameters and the moments they give *)

Section Lognormal.

Local Open Scope R_scope.

Lemma exp_half_sqrt (q : R) : 0 < q -> exp (ln q / 2) = R_sqrt.sqrt q.
Proof.
  intros Hq. symmetry. apply sqrt_lem_1.
  - lra.
  - apply Rlt_le, exp_pos.
  - rewrite <- exp_plus.
    replace (ln q / 2 + ln q / 2) with (ln q) by field.
    now apply exp_ln.
Qed.

Lemma lognorm_parameters (mean variance : R) :
  0 < mean -> 0 <= variance ->
  let mu := mean ^ 2 / R_sqrt.sqrt (mean ^ 2 + variance) in
  let sigma := R_sqrt.sqrt (ln (1 + variance / mean ^ 2)) in
  0 < mu
  /\ 0 <= sigma
  /\ mu * exp (sigma ^ 2 / 2) = mean
  /\ mu ^ 2 * (exp (sigma ^ 2) - 1) * exp (sigma ^ 2) = variance.
Proof.
  intros Hm Hv. cbv zeta.
  set (a := R_sqrt.sqrt (mean ^ 2 + variance)).
  set (q := 1 + variance / mean ^ 2).
  assert (Hm2 : 0 < mean ^ 2) by (simpl; nra).
  assert (Ha2 : a * a = mean ^ 2 + variance)
    by (apply sqrt_sqrt; lra).
  assert (Ha : 0 < a) by (apply sqrt_lt_R0; lra).
  assert (Hq : 1 <= q).
  { unfold q. assert (0 <= variance / mean ^ 2); [ | lra ].
    apply Rmult_le_pos; [exact Hv | ].
    now apply Rlt_le, Rinv_0_lt_compat. }
  assert (Hln : 0 <= ln q).
  { rewrite <- ln_1. destruct (Req_dec q 1) as [-> | Hne]; [lra | ].
    apply Rlt_le, ln_increasing; lra. }
  assert (Hs2 : R_sqrt.sqrt (ln q) ^ 2 = ln q)
    by (simpl; rewrite Rmult_1_r; now apply sqrt_sqrt).
  assert (Hexp : exp (ln q) = q) by (apply exp_ln; lra).
  assert (Hsq : R_sqrt.sqrt q = a / mean).
  { apply sqrt_lem_1.
    - lra.
    - apply Rlt_le, Rdiv_lt_0_compat; assumption.
    - unfold q. replace (a / mean * (a / mean))
        with (a * a / mean ^ 2) by (field; lra).
      rewrite Ha2. field. lra. }
  split; [now apply Rdiv_lt_0_compat | ].
  split; [apply sqrt_pos | ].
  rewrite Hs2, Hexp, exp_half_sqrt, Hsq by lra. split.
  - field. split; lra.
  - replace ((mean ^ 2 / a) ^ 2) with (mean ^ 2 * mean ^ 2 / (a * a))
      by (field; lra).
    rewrite Ha2. unfold q. field. split; lra.
Qed.

End Lognormal.

(** For a positive mean and a non-negative variance the parameters of the
    'scipy' convention, which [lognorm_mean_var] hands to the
    distribution, satisfy the moment equations of the log-normal
    distribution with scale [mu] and shape [sigma]: [mu * exp(sigma^2/2)]
    is the mean and [mu^2 * (exp(sigma^2) - 1) * exp(sigma^2)] the
    variance. *)
Theorem lognorm_parameters_give_moments (mean variance : R) :
  (0 < mean)%R -> (0 <= variance)%R ->
  exists mu sigma : R,
    lognorm_mean_var_to_mu_sigma mean variance "scipy" = Ok (mu, sigma)
    /\ lognorm_mean_var mean variance = Ok (mk_lognorm mu sigma)
    /\ (0 < mu)%R /\ (0 <= sigma)%R
    /\ (mu * exp (sigma ^ 2 / 2) = mean)%R
    /\ (mu ^ 2 * (exp (sigma ^ 2) - 1) * exp (sigma ^ 2) = variance)%R.
Proof.
  intros Hm Hv.
  destruct (lognorm_parameters Hm Hv) as (H1 & H2 & H3 & H4).
  eexists. eexists.
  split; [reflexivity | ]. split; [reflexivity | ].
  repeat split; assumption.
Qed.

Lemma lognorm_parameters_give_moments_witness :
  exists mu sigma : R,
    lognorm_mean_var_to_mu_sigma 2 3 "scipy" = Ok (mu, sigma)
    /\ lognorm_mean_var 2 3 = Ok (mk_lognorm mu sigma)
    /\ (0 < mu)%R /\ (0 <= sigma)%R
    /\ (mu * exp (sigma ^ 2 / 2) = 2)%R
    /\ (mu ^ 2 * (exp (sigma ^ 2) - 1) * exp (sigma ^ 2) = 3)%R.
Proof.
  apply (@lognorm_parameters_give_moments 2%R 3%R); lra.
Defined.

(** The 'numpy' convention returns the logarithm of the 'scipy' location
    with the same [sigma]; every other name of a convention raises
    [ValueError]. *)
Theorem lognorm_conventions (mean variance : R) (definition : string) :
  (0 < mean)%R -> (0 <= variance)%R ->
  (exists mu sigma : R,
      lognorm_mean_var_to_mu_sigma mean variance "scipy" = Ok (mu, sigma)
      /\ lognorm_mean_var_to_mu_sigma mean variance "numpy"
         = Ok (ln mu, sigma)
      /\ exp (ln mu) = mu)
  /\ (definition <> "scipy"%string -> definition <> "numpy"%string ->
      lognorm_mean_var_to_mu_sigma mean variance definition
      = Raise ValueError).
Proof.
  intros Hm Hv. split.
  - destruct (lognorm_parameters Hm Hv) as (Hmu & _).
    eexists. eexists. split; [reflexivity | ]. split; [reflexivity | ].
    now apply exp_ln.
  - intros Hs Hn. unfold lognorm_mean_var_to_mu_sigma.
    apply String.eqb_neq in Hs, Hn. now rewrite Hs, Hn.
Qed.

Lemma lognorm_conventions_witness :
  lognorm_mean_var_to_mu_sigma 2 3 "matlab" = Raise ValueError.
Proof.
  apply (proj2 (@lognorm_conventions 2%R 3%R "matlab"%string
                  ltac:(lra) ltac:(lra))); discriminate.
Defined.

(** ** The sampling distributions *)

Section SamplingFacts.

Variables gamma factorial : R -> R.

Local Open Scope R_scope.

Lemma powerRZ_0_pos (k : Z) : (0 < k)%Z -> powerRZ 0 k = 0.
Proof.
  intros Hk. destruct k as [ | p | p ]; try lia.
  simpl. apply pow_i. apply Pos2Nat.is_pos.
Qed.


(** Both densities are 0 for a negative argument, whatever the other
    arguments.  At 0 they are 0 as soon as the power of [x] in front has a
    positive exponent and no divisor is 0: from 2 samples on and for a
    standard deviation other than 0, and from 3 samples on and for a
    coefficient of variation other than 0 ([gamma] and [factorial] have
    no zero at the arguments the source passes). *)
Theorem sampling_distributions_vanish (x std cv : R) (num : Z) :
  (x < 0 ->
   sampling_distribution_std gamma x std num = 0
   /\ sampling_distribution_cv gamma factorial x cv num = 0)
  /\ ((2 <= num)%Z ->
      std <> 0 ->
      gamma (0.5 * IZR num) <> 0 ->
      sampling_distribution_std gamma 0 std num = 0)
  /\ ((3 <= num)%Z ->
      cv <> 0 ->
      gamma (0.5 * IZR (num - 1)) <> 0 ->
      (forall k : Z, (0 <= k)%Z -> factorial (IZR k) <> 0) ->
      sampling_distribution_cv gamma factorial 0 cv num = 0).
Proof.
  unfold sampling_distribution_std, sampling_distribution_cv.
  split; [ | split ].
  - intros Hx. destruct (Rlt_dec x 0) as [_ | Hn]; [ | contradiction ].
    split; reflexivity.
  - intros Hn _ _. destruct (Rlt_dec 0 0) as [H | _]; [lra | ].
    rewrite Rmult_0_l, powerRZ_0_pos by lia. unfold Rdiv. ring.
  - intros Hn _ _ _. destruct (Rlt_dec 0 0) as [H | _]; [lra | ].
    rewrite powerRZ_0_pos by lia. unfold Rdiv. ring.
Qed.

End SamplingFacts.


Lemma sampling_distributions_vanish_witness :
  (sampling_distribution_std (fun _ => 1%R) (-1) 2 5 = 0%R
   /\ sampling_distribution_cv (fun _ => 1%R) (fun _ => 1%R) (-1) 2 5
      = 0%R)
  /\ sampling_distribution_std (fun _ => 1%R) 0 2 5 = 0%R
  /\ sampling_distribution_cv (fun _ => 1%R) (fun _ => 1%R) 0 2 5 = 0%R.
Proof.
  split; [ | split ].
  - apply (proj1 (@sampling_distributions_vanish
                    (fun _ => 1%R) (fun _ => 1%R) (-1)%R 2%R 2%R 5%Z)).
    lra.
  - apply (proj1 (proj2 (@sampling_distributions_vanish
                           (fun _ => 1%R) (fun _ => 1%R) 0%R 2%R 2%R 5%Z)));
      [lia | lra | lra].
  - apply (proj2 (proj2 (@sampling_distributions_vanish
                           (fun _ => 1%R) (fun _ => 1%R) 0%R 2%R 2%R 5%Z)));
      [lia | lra | lra | intros; lra].
Defined.

(** ** The mean under covariance tracking *)




